(** * web_scraper.py: the fetch-and-paginate pipeline

    A shallow embedding of [fetch_page], [scrape_elements], [save_results]
    and [scrape_next_button] of [src/web_scraper.py], and the properties of
    the pipeline that the specification states about them.

    Python dictionaries are finite maps ([gmap]); the network, the clock of
    [asyncio.sleep], the log and the file system are an explicit world that
    every effectful function threads, together with the exception it may
    raise.  A coroutine is run from its call to its return: every [await]
    is followed through, and cancellation is not part of the model.
    Strings are strings of bytes, white space is the white space of
    ASCII.  The HTML parser belongs to BeautifulSoup, not to the program:
    it is a parameter, and the program is followed on the tree the parser
    returns, whose attributes read as the HTML tree builder of the
    library stores them (a list of values for [class] and its like). *)

From Stdlib Require Import ZArith List Ascii String Sorted.
From stdpp Require Import gmap strings list fin_maps.

Local Open Scope string_scope.
Local Open Scope list_scope.
Local Open Scope Z_scope.

(** ** The values of a scraped record *)

(** What a record holds under a key: a string, or, for an attribute that
    HTML defines as a list of values ([class], [rel], ...), the list of
    the values, which is what BeautifulSoup returns for it. *)
Inductive Value : Type :=
| Str (s : string)
| StrList (l : list string).

(** ** Parsed markup (the part of BeautifulSoup's tree the program reads) *)

Module Soup.

(** A node of the parse tree: a text node, a comment, or a tag with its
    attributes and its children in document order.  The attributes are
    kept as the markup writes them; what [tag[key]] returns for them is
    [get] below. *)
#[local] Set Warnings "-register-all".
Inductive Node : Type :=
| NavigableString (s : string)
| Comment (s : string)
| Tag (name : string) (attrs : gmap string string) (contents : list Node).

(** The attributes of a tag, as written; a text node or a comment carries
    none.  A key is in [tag.attrs] exactly when it is here. *)
Definition tag_attrs (n : Node) : gmap string string :=
  match n with
  | Tag _ a _ => a
  | _ => ∅
  end.

Definition tag_name (n : Node) : string :=
  match n with
  | Tag nm _ _ => nm
  | _ => ""
  end.

Definition is_tag_named (name : string) (n : Node) : bool :=
  match n with
  | Tag nm _ _ => String.eqb nm name
  | _ => false
  end.

(** [tag.descendants]: every node below [n], in document order
    (pre-order). *)
Fixpoint descendants (n : Node) : list Node :=
  match n with
  | Tag _ _ cs => flat_map (fun c => c :: descendants c) cs
  | _ => []
  end.

(** [soup.find_all(name)]: the tags called [name], in document order. *)
Definition find_all (soup : Node) (name : string) : list Node :=
  List.filter (is_tag_named name) (descendants soup).

(** [str.isspace] on the ASCII range: TAB..CR, FS..US and the blank. *)
Definition isspace (c : ascii) : bool :=
  let n := nat_of_ascii c in
  ((9 <=? n) && (n <=? 13) || (28 <=? n) && (n <=? 32))%nat.

Fixpoint lstrip (s : string) : string :=
  match s with
  | EmptyString => EmptyString
  | String c s' => if isspace c then lstrip s' else s
  end.

Fixpoint rstrip (s : string) : string :=
  match s with
  | EmptyString => EmptyString
  | String c s' =>
      match rstrip s' with
      | EmptyString => if isspace c then EmptyString else String c EmptyString
      | r => String c r
      end
  end.

(** [str.strip()]. *)
Definition strip (s : string) : string := rstrip (lstrip s).

(** The values of a list attribute: the runs of its characters that are
    not white space. *)
Fixpoint words_from (word : string) (s : string) : list string :=
  match s with
  | EmptyString => if String.eqb word "" then [] else [word]
  | String c s' =>
      if isspace c then
        if String.eqb word "" then words_from "" s'
        else word :: words_from "" s'
      else words_from (word ++ String c "") s'
  end.

Definition words (s : string) : list string := words_from "" s.

(** The attributes that the HTML tree builder of BeautifulSoup holds as
    lists: [class], [accesskey] and [dropzone] on every tag, and some
    more on a few tags. *)
Definition cdata_list_attributes (tag : string) : list string :=
  ["class"; "accesskey"; "dropzone"]
  ++ (if String.eqb tag "a" then ["rel"; "rev"]
      else if String.eqb tag "link" then ["rel"; "rev"]
      else if String.eqb tag "td" then ["headers"]
      else if String.eqb tag "th" then ["headers"]
      else if String.eqb tag "form" then ["accept-charset"]
      else if String.eqb tag "object" then ["archive"]
      else if String.eqb tag "area" then ["rel"]
      else if String.eqb tag "icon" then ["sizes"]
      else if String.eqb tag "iframe" then ["sandbox"]
      else if String.eqb tag "output" then ["for"]
      else []).

Definition is_list_attribute (tag key : string) : bool :=
  existsb (String.eqb key) (cdata_list_attributes tag).

(** [tag[key]] and [tag.attrs[key]] of a tree built by
    [BeautifulSoup(markup, "html.parser")]: the list of the values for a
    list attribute of the tag, the string as written for any other. *)
Definition get (n : Node) (key : string) : option Value :=
  match tag_attrs n !! key with
  | Some raw =>
      Some (if is_list_attribute (tag_name n) key then StrList (words raw)
            else Str raw)
  | None => None
  end.

(** The strings [tag.get_text(strip=True)] joins: every text node below
    the tag (a comment is none), stripped, the ones that become empty
    left out. *)
Definition stripped_strings (n : Node) : list string :=
  flat_map
    (fun d =>
       match d with
       | NavigableString s =>
           let t := strip s in
           if String.eqb t "" then [] else [t]
       | _ => []
       end)
    (descendants n).

(** [tag.get_text(strip=True)], the separator being the empty string. *)
Definition get_text (n : Node) : string :=
  String.concat "" (stripped_strings n).

(** [tag.string]: the single string (a text or a comment) below a tag
    that has one child only, all the way down; [None] otherwise. *)
Fixpoint tag_string (n : Node) : option string :=
  match n with
  | NavigableString s => Some s
  | Comment s => Some s
  | Tag _ _ cs =>
      match cs with
      | [c] => tag_string c
      | _ => None
      end
  end.

Definition matches (name text : string) (n : Node) : bool :=
  is_tag_named name n &&
  match tag_string n with
  | Some s => String.eqb s text
  | None => false
  end.

(** [soup.find(name, text=text)]: the first tag called [name] whose
    [.string] is exactly [text]. *)
Definition find (soup : Node) (name text : string) : option Node :=
  List.find (matches name text) (descendants soup).

End Soup.

Import Soup.

(** ** The data model *)

(** One matched element: attribute name (or the key "text") to value. *)
Abbreviation ScrapedRecord := (gmap string Value) (only parsing).
(** Selector to the records of the elements it matched, in order. *)
Abbreviation ScrapedData := (gmap string (list (gmap string Value))) (only parsing).
(** Selector to the attribute names to capture. *)
Abbreviation ElementSpec := (gmap string (list string)) (only parsing).

(** ** scrape_elements *)

(** The body of the loop over one matched element: the listed attributes
    that the element has, then the "text" entry. *)
Definition element_data (attributes : list string) (element : Node) : ScrapedRecord :=
  let element_data :=
    foldl (fun (d : gmap string Value) attr =>
             match get element attr with
             | Some v => <[attr := v]> d
             | None => d
             end) ∅ attributes in
  <["text" := Str (get_text element)]> element_data.

Definition scrape_elements (soup : Node) (elements : ElementSpec) : ScrapedData :=
  map_fold
    (fun (element_type : string) (attributes : list string) (results : ScrapedData) =>
       let results : ScrapedData := <[element_type := []]> results in
       foldl (fun (results : ScrapedData) (element : Node) =>
                <[element_type :=
                    default [] (results !! element_type)
                      ++ [element_data attributes element]]> results)
             results (find_all soup element_type))
    ∅ elements.

(** The records of the elements that [soup] has for one selector. *)
Definition page_records (attributes : list string) (element_type : string)
    (soup : Node) : list (gmap string Value) :=
  element_data attributes <$> find_all soup element_type.

(** ** Effects: the world, exceptions, and the monad that threads them *)

(** The exceptions the program meets: whatever an attempt of the HTTP
    client raises (transport error, timeout, non-2xx status), the
    [KeyError] of a missing dictionary key, and the [OSError] of a file
    that cannot be opened. *)
Inductive Exn : Type :=
| ClientError (reason : string)
| KeyError (key : string)
| OSError (path : string).

Inductive Result (A : Type) : Type :=
| Ret (a : A)
| Exc (e : Exn).
Arguments Ret {A} a.
Arguments Exc {A} e.

(** What [session.get(url, headers=headers, proxy=proxy, timeout=10)] sends. *)
Record Request : Type := mkRequest {
  req_url : string;
  req_user_agent : string;
  req_proxy : option string;
  req_timeout : Z
}.

(** The records handed to [logging]. *)
Inductive LogRecord : Type :=
| WarnAttemptFailed (attempt_number : Z) (url : string) (e : Exn)
| ErrorFetchFailed (url : string) (retries : Z)
| InfoScrapingPage (url : string)
| InfoResultsSaved (path : string)
| ErrorUnsupportedFormat.

Inductive Event : Type :=
| EvGet (r : Request)
| EvSleep (seconds : Z)
| EvLog (m : LogRecord).

(** What a written file holds: the dictionary given to [json.dump], or the
    rows given to the CSV writer, the cells as they are given. *)
Inductive FileContent : Type :=
| JsonDump (results : gmap string (list (gmap string Value)))
| CsvRows (rows : list (list Value)).

(** The world: how many requests were sent so far, everything observable
    that happened, in order, the files on disk, and the paths that
    [open(path, "w")] can open. *)
Record World : Type := mkWorld {
  requests : nat;
  trace : list Event;
  files : gmap string FileContent;
  can_open : string -> bool
}.

(** The remote side: what the n-th request of the run, being [r], meets,
    the page text or the exception the attempt raises. *)
Definition Network : Type := nat -> Request -> Result string.

Definition M (A : Type) : Type := World -> Result A * World.

Definition ret {A} (a : A) : M A := fun w => (Ret a, w).

Definition raise {A} (e : Exn) : M A := fun w => (Exc e, w).

Definition bind {A B} (m : M A) (k : A -> M B) : M B :=
  fun w =>
    match m w with
    | (Ret a, w') => k a w'
    | (Exc e, w') => (Exc e, w')
    end.

(** [try: m  except Exception as e: h e]. *)
Definition try_except {A} (m : M A) (h : Exn -> M A) : M A :=
  fun w =>
    match m w with
    | (Ret a, w') => (Ret a, w')
    | (Exc e, w') => h e w'
    end.

Declare Scope py_scope.
Delimit Scope py_scope with py.
Notation "'let!' x ':=' m 'in' k" := (bind m (fun x => k))
  (at level 10, x name, m at level 100, k at level 200) : py_scope.
Notation "m '>>' k" := (bind m (fun _ => k))
  (at level 80, right associativity) : py_scope.
Local Open Scope py_scope.

(** The observations made on a run of events. *)
Definition is_get (e : Event) : bool :=
  match e with EvGet _ => true | _ => false end.

(** How many requests were sent. *)
Definition gets (evs : list Event) : nat := length (List.filter is_get evs).

(** The waits, in order. *)
Definition sleeps (evs : list Event) : list Z :=
  flat_map (fun e => match e with EvSleep s => [s] | _ => [] end) evs.

(** The pages announced by "Scraping page: ...", in order: one per
    iteration of the paginator, each followed by one call of
    [fetch_page]. *)
Definition pages_logged (evs : list Event) : list string :=
  flat_map (fun e => match e with EvLog (InfoScrapingPage u) => [u] | _ => [] end) evs.

(** The world once [evs] has happened in [w]. *)
Definition after (w : World) (evs : list Event) : World :=
  mkWorld (requests w + gets evs) (trace w ++ evs) (files w) (can_open w).

Definition emit (e : Event) : M unit :=
  fun w => (Ret tt, after w [e]).

Definition logging (m : LogRecord) : M unit := emit (EvLog m).

(** [await asyncio.sleep(seconds)]. *)
Definition sleep (seconds : Z) : M unit := emit (EvSleep seconds).

(** One attempt: the session is opened, the request sent, the status
    checked and the body read; any of them may raise. *)
Definition http_get (net : Network) (r : Request) : M string :=
  fun w => (net (requests w) r, after w [EvGet r]).

(** [with open(path, "w") as f:] and the writing of [c] to [f]: the file
    is opened, which raises when the path cannot be opened, and then
    holds [c]. *)
Definition write_file (path : string) (c : FileContent) : M unit :=
  fun w =>
    if can_open w path then
      (Ret tt,
       mkWorld (requests w) (trace w) (<[path := c]> (files w)) (can_open w))
    else (Exc (OSError path), w).

(** [range(n)]. *)
Definition range (n : Z) : list Z := List.map Z.of_nat (seq 0 (Z.to_nat n)).

(** ** fetch_page *)

Definition USER_AGENTS : list string :=
  [ "Mozilla/5.0 (Windows NT 10.0; Win64; x64) AppleWebKit/537.36 (KHTML, like Gecko) Chrome/91.0.4472.124 Safari/537.36";
    "Mozilla/5.0 (Macintosh; Intel Mac OS X 10_15_7) AppleWebKit/605.1.15 (KHTML, like Gecko) Version/14.1.1 Safari/605.1.15";
    "Mozilla/5.0 (Windows NT 10.0; Win64; x64; rv:89.0) Gecko/20100101 Firefox/89.0" ].

(** [headers]: the given user agent when it is truthy, else the first of
    [USER_AGENTS]. *)
Definition headers (user_agent : option string) : string :=
  match user_agent with
  | Some ua => if String.eqb ua "" then hd "" USER_AGENTS else ua
  | None => hd "" USER_AGENTS
  end.

(** The loop [for attempt in range(retries)], on the attempts still to
    make.  Falling off the loop returns [None], as a Python function that
    ends without [return] does. *)
Fixpoint fetch_loop (net : Network) (req : Request) (retries : Z)
    (attempts : list Z) : M (option string) :=
  match attempts with
  | [] => ret None
  | attempt :: rest =>
      try_except
        (let! text := http_get net req in ret (Some text))
        (fun e =>
           logging (WarnAttemptFailed (attempt + 1) (req_url req) e) >>
           if attempt =? retries - 1 then
             logging (ErrorFetchFailed (req_url req) retries) >>
             ret None
           else
             sleep (2 ^ attempt) >>
             fetch_loop net req retries rest)
  end.

Definition fetch_page (net : Network) (url : string)
    (user_agent : option string) (proxy : option string) (retries : Z)
    : M (option string) :=
  fetch_loop net (mkRequest url (headers user_agent) proxy 10) retries
    (range retries).

(** ** The runs of fetch_page *)

(** What the attempts numbered [k], [k+1], ... of one call do, the first
    of them being the [n]-th request of the run: the events, and what the
    call returns. *)
Inductive attempts (net : Network) (req : Request) (retries : Z)
  : nat -> nat -> list Event -> option string -> Prop :=
| attempt_succeeds k n text :
    net n req = Ret text ->
    attempts net req retries k n [EvGet req] (Some text)
| attempt_fails_last k n e :
    net n req = Exc e ->
    Z.of_nat k = retries - 1 ->
    attempts net req retries k n
      [EvGet req;
       EvLog (WarnAttemptFailed (Z.of_nat k + 1) (req_url req) e);
       EvLog (ErrorFetchFailed (req_url req) retries)] None
| attempt_fails_retry k n e evs res :
    net n req = Exc e ->
    Z.of_nat k <> retries - 1 ->
    attempts net req retries (k + 1) (n + 1) evs res ->
    attempts net req retries k n
      (EvGet req
       :: EvLog (WarnAttemptFailed (Z.of_nat k + 1) (req_url req) e)
       :: EvSleep (2 ^ Z.of_nat k)
       :: evs) res.

(** A URL whose every attempt fails, whenever and however it is asked. *)
Definition always_fails (net : Network) (url : string) : Prop :=
  forall n q, req_url q = url -> exists e, net n q = Exc e.

(** The [retries] attempts of a call that sends [req], the first of them
    being the [first]-th request of the run, all fail. *)
Definition attempts_fail (net : Network) (req : Request) (first : nat)
    (retries : Z) : Prop :=
  forall i : nat, Z.of_nat i < retries -> exists e, net (first + i)%nat req = Exc e.

(** ** save_results *)

(** The rows after the header: one per (element type, attribute, value),
    in the iteration order of the dictionaries.  A finite map iterates in
    the order of its keys, a Python dictionary in the order of insertion:
    the rows are the rows of the program, their order need not be. *)
Definition csv_rows (results : ScrapedData) : list (list Value) :=
  flat_map
    (fun '(element_type, elements) =>
       flat_map
         (fun element : gmap string Value =>
            List.map (fun '(attr, value) => [Str element_type; Str attr; value])
                     (map_to_list element))
         elements)
    (map_to_list results).

Definition save_results (results : ScrapedData) (output_format : string)
    (filename : string) : M unit :=
  if String.eqb output_format "json" then
    write_file (filename ++ ".json")%string (JsonDump results) >>
    logging (InfoResultsSaved (filename ++ ".json")%string)
  else if String.eqb output_format "csv" then
    write_file (filename ++ ".csv")%string
      (CsvRows ([Str "Element"; Str "Attribute"; Str "Value"] :: csv_rows results)) >>
    logging (InfoResultsSaved (filename ++ ".csv")%string)
  else
    logging ErrorUnsupportedFormat.

(** ** save_to_sqlite *)

Inductive SqlStatement : Type :=
| CreateTableIfNotExists
| InsertRow (element_type attribute : string) (value : Value).

(** What [save_to_sqlite] asks of the database, and what it logs. *)
Inductive DbEvent : Type :=
| DbConnect (db_name : string)
| DbCursor
| DbExecute (statement : SqlStatement)
| DbCommit
| DbClose
| DbLogInfo (db_name : string)
| DbLogError (reason : string).

(** The world of [save_to_sqlite]: how many operations the database was
    asked for, and what happened, in order. *)
Record DbWorld : Type := mkDbWorld {
  db_operations : nat;
  db_trace : list DbEvent
}.

(** The database side: whether the n-th operation of the run, being [op],
    raises, and with what message. *)
Definition Sqlite : Type := nat -> DbEvent -> option string.

Inductive DbResult (A : Type) : Type :=
| DbRet (a : A)
| DbExc (reason : string).
Arguments DbRet {A} a.
Arguments DbExc {A} reason.

Definition DbM (A : Type) : Type := DbWorld -> DbResult A * DbWorld.

Definition db_ret {A} (a : A) : DbM A := fun w => (DbRet a, w).

Definition db_bind {A B} (m : DbM A) (k : A -> DbM B) : DbM B :=
  fun w =>
    match m w with
    | (DbRet a, w') => k a w'
    | (DbExc reason, w') => (DbExc reason, w')
    end.

(** [try: m  except Exception as e: h e]. *)
Definition db_try {A} (m : DbM A) (h : string -> DbM A) : DbM A :=
  fun w =>
    match m w with
    | (DbRet a, w') => (DbRet a, w')
    | (DbExc reason, w') => h reason w'
    end.

Notation "m '>>>' k" := (db_bind m (fun _ => k))
  (at level 80, right associativity) : py_scope.

(** One operation on the database. *)
Definition db_call (sqlite : Sqlite) (op : DbEvent) : DbM unit :=
  fun w =>
    (match sqlite (db_operations w) op with
     | None => DbRet tt
     | Some reason => DbExc reason
     end,
     mkDbWorld (S (db_operations w)) (db_trace w ++ [op])).

Definition db_log (e : DbEvent) : DbM unit :=
  fun w => (DbRet tt, mkDbWorld (db_operations w) (db_trace w ++ [e])).

(** [for x in l: body x]. *)
Fixpoint db_for_each {A} (body : A -> DbM unit) (l : list A) : DbM unit :=
  match l with
  | [] => db_ret tt
  | x :: l' => body x >>> db_for_each body l'
  end.

Definition save_to_sqlite (sqlite : Sqlite) (results : ScrapedData)
    (db_name : string) : DbM unit :=
  db_try
    (db_call sqlite (DbConnect db_name) >>>
     db_call sqlite DbCursor >>>
     db_call sqlite (DbExecute CreateTableIfNotExists) >>>
     db_for_each
       (fun '(element_type, elements) =>
          db_for_each
            (fun element : gmap string Value =>
               db_for_each
                 (fun '(attr, value) =>
                    db_call sqlite (DbExecute (InsertRow element_type attr value)))
                 (map_to_list element))
            elements)
       (map_to_list results) >>>
     db_call sqlite DbCommit >>>
     db_call sqlite DbClose >>>
     db_log (DbLogInfo db_name))
    (fun reason => db_log (DbLogError reason)).

(** The operations that [save_to_sqlite] sets out to do, in order. *)
Definition sqlite_script (results : ScrapedData) (db_name : string) : list DbEvent :=
  [DbConnect db_name; DbCursor; DbExecute CreateTableIfNotExists]
  ++ flat_map
       (fun '(element_type, elements) =>
          flat_map
            (fun element : gmap string Value =>
               List.map (fun '(attr, value) =>
                           DbExecute (InsertRow element_type attr value))
                        (map_to_list element))
            elements)
       (map_to_list results)
  ++ [DbCommit; DbClose].

(** Doing the operations of a script one after the other, up to the first
    that raises: what was done, and the message of the one that raised. *)
Fixpoint run_script (sqlite : Sqlite) (n : nat) (script : list DbEvent)
    : list DbEvent * option string :=
  match script with
  | [] => ([], None)
  | op :: rest =>
      match sqlite n op with
      | Some reason => ([op], Some reason)
      | None =>
          let '(done, failure) := run_script sqlite (S n) rest in
          (op :: done, failure)
      end
  end.

(** The rows that were inserted, in order. *)
Definition inserted (evs : list DbEvent) : list (list Value) :=
  flat_map (fun e => match e with
                     | DbExecute (InsertRow element_type attr value) =>
                         [[Str element_type; Str attr; value]]
                     | _ => []
                     end) evs.

(** ** scrape_next_button *)

(** The keyword arguments passed on to [fetch_page]; one that is left out
    takes the default of [fetch_page]. *)
Record Kwargs : Type := mkKwargs {
  kw_user_agent : option string;
  kw_proxy : option string;
  kw_retries : option Z
}.

Definition fetch_page_kw (net : Network) (url : string) (kwargs : Kwargs)
    : M (option string) :=
  fetch_page net url (kw_user_agent kwargs) (kw_proxy kwargs)
    (default 3 (kw_retries kwargs)).

(** [tag[key]] for a key that is on no tag an attribute held as a list,
    as [href] is: the string as written, or a [KeyError]. *)
Definition getitem (t : Node) (key : string) : M string :=
  match tag_attrs t !! key with
  | Some v => ret v
  | None => raise (KeyError key)
  end.

(** The loop that merges the results of one page into [all_results]. *)
Definition merge_results (all_results results : ScrapedData) : ScrapedData :=
  map_fold
    (fun (element_type : string) (data : list (gmap string Value))
         (all_results : ScrapedData) =>
       let all_results : ScrapedData :=
         match all_results !! element_type with
         | None => <[element_type := []]> all_results
         | Some _ => all_results
         end in
       <[element_type := default [] (all_results !! element_type) ++ data]>
         all_results)
    all_results results.

(** The aggregate after the pages [soups] were merged, in this order,
    into [all_results]. *)
Definition merge_pages (elements : gmap string (list string))
    (all_results : gmap string (list (gmap string Value))) (soups : list Node)
    : gmap string (list (gmap string Value)) :=
  foldl (fun all_results soup =>
           merge_results all_results (scrape_elements soup elements))
        all_results soups.

Section Paginator.

(** [BeautifulSoup(html_content, "html.parser")]: the parser is the
    library's. *)
Variable parse : string -> Node.
Variable net : Network.

(** The loop [for _ in range(max_pages)], on the number of iterations
    left; it carries [url] and [all_results].  [not html_content] holds
    of [None] and of the empty string, [not next_button] of [None] only
    (a tag is always true). *)
Fixpoint scrape_loop (elements : ElementSpec) (kwargs : Kwargs)
    (iterations : nat) (url : string) (all_results : ScrapedData)
    : M ScrapedData :=
  match iterations with
  | O => ret all_results
  | S iterations' =>
      logging (InfoScrapingPage url) >>
      let! html_content := fetch_page_kw net url kwargs in
      match html_content with
      | None => ret all_results
      | Some content =>
          if String.eqb content "" then ret all_results
          else
            let soup := parse content in
            let results := scrape_elements soup elements in
            let all_results := merge_results all_results results in
            match find soup "a" "Next" with
            | None => ret all_results
            | Some next_button =>
                let! url := getitem next_button "href" in
                scrape_loop elements kwargs iterations' url all_results
            end
      end
  end.

Definition scrape_next_button (base_url : string) (elements : ElementSpec)
    (max_pages : Z) (kwargs : Kwargs) : M ScrapedData :=
  scrape_loop elements kwargs (Z.to_nat max_pages) base_url ∅.

(** The crawl that starts at [url] in [w] fetches the pages [soups],
    each of them not empty and with a "Next" link that has a target, and
    is then about to fetch [url'] in [w']. *)
Inductive follows (kwargs : Kwargs) : string -> World -> list Node -> string -> World -> Prop :=
| follows_here url w : follows kwargs url w [] url w
| follows_next url w content w1 next_button href soups url' w' :
    fetch_page_kw net url kwargs (after w [EvLog (InfoScrapingPage url)])
      = (Ret (Some content), w1) ->
    content <> "" ->
    find (parse content) "a" "Next" = Some next_button ->
    tag_attrs next_button !! "href" = Some href ->
    follows kwargs href w1 soups url' w' ->
    follows kwargs url w (parse content :: soups) url' w'.

End Paginator.

(** Every page has a "Next" link, with a target. *)
Definition always_next (parse : string -> Node) : Prop :=
  forall content, exists next_button href,
    find (parse content) "a" "Next" = Some next_button
    /\ tag_attrs next_button !! "href" = Some href.

(** Every request is answered, with some content. *)
Definition always_answers (net : Network) : Prop :=
  forall n q, exists content, net n q = Ret content /\ content <> "".

(** ** Concrete sites, for the examples *)

Definition world0 : World := mkWorld 0 [] ∅ (fun _ => true).

(** A world in which nothing under [missing_dir/] can be opened. *)
Definition unwritable_world : World :=
  mkWorld 0 [] ∅ (fun path => negb (String.prefix "missing_dir/" path)).

Definition no_kwargs : Kwargs := mkKwargs None None None.

(** A server that refuses every request. *)
Definition net_down : Network :=
  fun _ _ => Exc (ClientError "connection refused").

Definition document (contents : list Node) : Node := Tag "[document]" ∅ contents.

Definition next_link (href : string) : Node :=
  Tag "a" {["href" := href]} [NavigableString "Next"].

(** Two headings, the first with a class, and a link to the second page. *)
Definition page1 : Node :=
  document
    [Tag "body" ∅
       [Tag "h1" {["class" := "a"]} [NavigableString "Hi"];
        NavigableString "
";
        Tag "h1" ∅ [NavigableString " Bye "];
        next_link "http://site/2"]].

(** The last page: its link reads "next", which is not "Next". *)
Definition page2 : Node :=
  document
    [Tag "body" ∅
       [Tag "h1" {["class" := "b"; "id" := "t"]}
          [NavigableString "Page "; Tag "b" ∅ [NavigableString "two"]];
        Tag "a" {["href" := "http://site/3"]} [NavigableString "next"]]].

(** A page whose "Next" leads to a dead address. *)
Definition pageA : Node :=
  document [Tag "h1" ∅ [NavigableString "A"]; next_link "http://site/dead"].

(** A page whose "Next" leads to an address that answers with no content. *)
Definition pageB : Node :=
  document [Tag "h1" ∅ [NavigableString "B"]; next_link "http://site/empty"].

(** A page whose "Next" link has no [href]. *)
Definition pageC : Node :=
  document [Tag "h1" ∅ [NavigableString "C"]; Tag "a" ∅ [NavigableString "Next"]].

(** A page whose "Next" leads to the page with the bare "Next". *)
Definition pageD : Node :=
  document [Tag "h1" {["class" := "d"]} [NavigableString "D"];
            next_link "http://site/c"].

Definition site_parse (content : string) : Node :=
  if String.eqb content "<page1>" then page1
  else if String.eqb content "<page2>" then page2
  else if String.eqb content "<pageA>" then pageA
  else if String.eqb content "<pageB>" then pageB
  else document [].

(** The same parser, which also knows the page with the bare "Next". *)
Definition broken_parse (content : string) : Node :=
  if String.eqb content "<pageC>" then pageC
  else if String.eqb content "<pageD>" then pageD
  else site_parse content.

Definition site_net : Network :=
  fun _ r =>
    let url := req_url r in
    if String.eqb url "http://site/1" then Ret "<page1>"
    else if String.eqb url "http://site/2" then Ret "<page2>"
    else if String.eqb url "http://site/a" then Ret "<pageA>"
    else if String.eqb url "http://site/b" then Ret "<pageB>"
    else if String.eqb url "http://site/c" then Ret "<pageC>"
    else if String.eqb url "http://site/d" then Ret "<pageD>"
    else if String.eqb url "http://site/empty" then Ret ""
    else Exc (ClientError "404").

(** A site without end: every address answers, every page has a "Next". *)
Definition endless_net : Network := fun _ _ => Ret "<more>".

Definition endless_parse (content : string) : Node :=
  document [Tag "h1" ∅ [NavigableString content]; next_link "http://site/more"].

(** A page with two headings: the first has a class, the second none. *)
Definition two_headings : Node :=
  document
    [Tag "h1" {["class" := "a"]} [NavigableString "Hi"];
     Tag "h1" ∅ [NavigableString "Bye"]].

Definition h1_class : gmap string (list string) := {["h1" := ["class"]]}.

(** ** Further observations on a run of events *)

(** The requests sent, in order. *)
Definition requests_sent (evs : list Event) : list Request :=
  flat_map (fun e => match e with EvGet r => [r] | _ => [] end) evs.

(** The numbers that the warnings "Attempt n failed" carry, in order. *)
Definition warnings (evs : list Event) : list Z :=
  flat_map (fun e => match e with
                     | EvLog (WarnAttemptFailed n _ _) => [n]
                     | _ => []
                     end) evs.

(** How often "Failed to fetch ... after ... attempts" was logged. *)
Definition fetch_errors (evs : list Event) : nat :=
  length (flat_map (fun e => match e with
                             | EvLog (ErrorFetchFailed _ _) => [e]
                             | _ => []
                             end) evs).

(** The sum of a list of durations. *)
Definition total (l : list Z) : Z := foldr Z.add 0 l.

(** A server that lets the first [k] requests of the run time out and
    answers the later ones. *)
Definition flaky_net (k : nat) : Network :=
  fun n _ => if (n <? k)%nat then Exc (ClientError "timeout") else Ret "<page2>".

(** [m] does the operations of [script], one after the other, up to the
    first that raises. *)
Definition does (sqlite : Sqlite) (m : DbM unit) (script : list DbEvent) : Prop :=
  forall w, m w = db_for_each (db_call sqlite) script w.

(** A request of the crawl: to an address that was announced, with the
    user agent, the proxy and the timeout of every call of [fetch_page]. *)
Definition crawl_request (kwargs : Kwargs) (announced : list string)
    (r : Request) : Prop :=
  In (req_url r) announced
  /\ req_user_agent r = headers (kw_user_agent kwargs)
  /\ req_proxy r = kw_proxy kwargs
  /\ req_timeout r = 10.

(** A string that is not empty, starts with no white space and ends with
    none. *)
Definition trimmed (s : string) : Prop :=
  match s with
  | EmptyString => False
  | String c _ => isspace c = false
  end /\ rstrip s = s.

(** Where the "Next" link of a page leads, when it has one with a target. *)
Definition next_href (soup : Node) : option string :=
  match find soup "a" "Next" with
  | Some next_button => tag_attrs next_button !! "href"
  | None => None
  end.

(** A heading with three attributes, one of them called "text". *)
Definition heading_with_text_attribute : Node :=
  Tag "h1" {["class" := "a"; "id" := "top"; "text" := "shadowed"]}
    [NavigableString " Title "].

Definition db_world0 : DbWorld := mkDbWorld 0 [].

(** A database that takes everything. *)
Definition sqlite_ok : Sqlite := fun _ _ => None.

(** A database that takes strings only, as SQLite does: a list is no
    value it can bind. *)
Definition sqlite_strict : Sqlite :=
  fun _ op =>
    match op with
    | DbExecute (InsertRow _ _ (StrList _)) => Some "unsupported type"
    | _ => None
    end.

(** A database whose disk is full at the [k]-th operation of the run. *)
Definition sqlite_full_at (k : nat) : Sqlite :=
  fun n _ => if (n =? k)%nat then Some "database or disk is full" else None.

(** ** Facts on worlds and events *)

Lemma gets_app (a b : list Event) : gets (a ++ b) = (gets a + gets b)%nat.
Proof. unfold gets. by rewrite List.filter_app, length_app. Qed.

Lemma sleeps_app (a b : list Event) : sleeps (a ++ b) = sleeps a ++ sleeps b.
Proof. unfold sleeps. apply flat_map_app. Qed.

Lemma pages_logged_app (a b : list Event) :
  pages_logged (a ++ b) = pages_logged a ++ pages_logged b.
Proof. unfold pages_logged. apply flat_map_app. Qed.

Lemma after_nil (w : World) : after w [] = w.
Proof.
  destruct w as [n tr fs]. unfold after; simpl.
  by rewrite Nat.add_0_r, app_nil_r.
Qed.

Lemma after_after (w : World) (a b : list Event) :
  after (after w a) b = after w (a ++ b).
Proof.
  unfold after; simpl. by rewrite gets_app, Nat.add_assoc, app_assoc.
Qed.

(** ** Facts on fetch_page *)

Section Fetcher.

Variable net : Network.
Variable req : Request.
Variable retries : Z.

(** One iteration of the loop. *)
Lemma fetch_loop_cons (attempt : Z) (rest : list Z) (w : World) :
  fetch_loop net req retries (attempt :: rest) w =
  match net (requests w) req with
  | Ret text => (Ret (Some text), after w [EvGet req])
  | Exc e =>
      let failed :=
        [EvGet req; EvLog (WarnAttemptFailed (attempt + 1) (req_url req) e)] in
      if attempt =? retries - 1 then
        (Ret None,
         after w (failed ++ [EvLog (ErrorFetchFailed (req_url req) retries)]))
      else
        fetch_loop net req retries rest
          (after w (failed ++ [EvSleep (2 ^ attempt)]))
  end.
Proof.
  cbn [fetch_loop]. unfold try_except, bind, http_get.
  destruct (net (requests w) req) as [text|e]; [done|].
  unfold logging, sleep, emit, ret.
  destruct (attempt =? retries - 1); by rewrite !after_after.
Qed.

(** The loop, entered with [m + 1] attempts left, does one of the runs
    of [attempts] and raises nothing. *)
Lemma fetch_loop_attempts (m k : nat) (w : World) :
  retries = Z.of_nat (k + S m) ->
  exists evs res,
    fetch_loop net req retries (List.map Z.of_nat (seq k (S m))) w
      = (Ret res, after w evs)
    /\ attempts net req retries k (requests w) evs res.
Proof.
  revert k w. induction m as [|m IH]; intros k w Hr.
  - cbn [seq List.map]. rewrite fetch_loop_cons.
    destruct (net (requests w) req) as [text|e] eqn:E.
    + exists [EvGet req], (Some text). split; [done|]. by constructor.
    + assert ((Z.of_nat k =? retries - 1) = true) as -> by lia.
      eexists _, None. split; [done|]. constructor; [done|lia].
  - change (seq k (S (S m))) with (k :: seq (S k) (S m)).
    rewrite map_cons, fetch_loop_cons.
    destruct (net (requests w) req) as [text|e] eqn:E.
    + exists [EvGet req], (Some text). split; [done|]. by constructor.
    + assert ((Z.of_nat k =? retries - 1) = false) as -> by lia.
      cbv zeta.
      destruct (IH (S k)
                  (after w ([EvGet req;
                             EvLog (WarnAttemptFailed (Z.of_nat k + 1) (req_url req) e)]
                            ++ [EvSleep (2 ^ Z.of_nat k)])))
        as (evs & res & Hrun & Hatt); [lia|].
      rewrite Hrun, after_after. eexists _, res. split; [done|].
      eapply attempt_fails_retry; [done|lia|].
      simpl in Hatt. by rewrite (Nat.add_1_r k).
Qed.

(** A run sends one request per attempt and waits [2 ^ i] after the
    failed attempt [i]; its last attempt is not followed by a wait. *)
Lemma attempts_sleeps k n evs res :
  attempts net req retries k n evs res ->
  sleeps evs = List.map (fun i => 2 ^ Z.of_nat i) (seq k (gets evs - 1)).
Proof.
  induction 1 as [k n text _|k n e _ _|k n e evs res _ _ Hrest IH]; [done..|].
  change (sleeps _) with (2 ^ Z.of_nat k :: sleeps evs).
  change (gets _) with (S (gets evs)).
  assert (gets evs <> 0%nat) by (inversion Hrest; simpl; discriminate).
  destruct (gets evs) as [|g] eqn:G; [done|].
  rewrite IH. simpl. rewrite Nat.sub_0_r, (Nat.add_1_r k). by destruct g.
Qed.

Lemma attempts_pages_logged k n evs res :
  attempts net req retries k n evs res -> pages_logged evs = [].
Proof. induction 1; done. Qed.

Lemma attempts_gets_le k n evs res :
  attempts net req retries k n evs res ->
  Z.of_nat k < retries ->
  Z.of_nat (gets evs) <= retries - Z.of_nat k.
Proof.
  induction 1 as [k n text _|k n e _ _|k n e evs res _ Hk _ IH]; intros Hlt;
    [change (gets _) with 1%nat; lia..|].
  change (gets _) with (S (gets evs)).
  assert (Z.of_nat (gets evs) <= retries - Z.of_nat (k + 1)) by (apply IH; lia).
  lia.
Qed.

(** When the attempts that are left all fail, they are all made, and the
    call returns [None]. *)
Lemma attempts_all_fail k n evs res :
  attempts net req retries k n evs res ->
  (forall i : nat, Z.of_nat k + Z.of_nat i < retries ->
                   exists e, net (n + i)%nat req = Exc e) ->
  Z.of_nat k < retries ->
  res = None /\ Z.of_nat (gets evs) = retries - Z.of_nat k.
Proof.
  induction 1 as [k n text Hok|k n e _ Hk|k n e evs res _ Hk _ IH];
    intros Hdown Hlt.
  - destruct (Hdown 0%nat) as [e He]; [lia|].
    rewrite Nat.add_0_r in He. congruence.
  - split; [done|]. change (gets _) with 1%nat. lia.
  - destruct IH as [-> IH]; [|lia|].
    + intros i Hi. destruct (Hdown (S i)) as [e' He']; [lia|].
      exists e'. by rewrite <- He', <- Nat.add_assoc.
    + split; [done|]. change (gets _) with (S (gets evs)). lia.
Qed.

End Fetcher.

(** A call of [fetch_page]: nothing happens when [retries] is not
    positive, else the attempts are made from number 0 on; no exception
    leaves the call. *)
Lemma fetch_page_run (net : Network) (url : string) (user_agent proxy : option string)
    (retries : Z) (w : World) :
  exists evs res,
    fetch_page net url user_agent proxy retries w = (Ret res, after w evs)
    /\ ((retries <= 0 /\ evs = [] /\ res = None)
        \/ (0 < retries
            /\ attempts net (mkRequest url (headers user_agent) proxy 10)
                 retries 0 (requests w) evs res)).
Proof.
  unfold fetch_page, range.
  destruct (Z.to_nat retries) as [|m] eqn:Hm.
  - exists [], None. rewrite after_nil. split; [done|]. left. repeat split; lia.
  - destruct (fetch_loop_attempts net (mkRequest url (headers user_agent) proxy 10)
                retries m 0 w) as (evs & res & Hrun & Hatt); [lia|].
    exists evs, res. split; [done|]. right. split; [lia|done].
Qed.

Lemma always_fails_attempts_fail (net : Network) (url user_agent : string)
    (proxy : option string) (timeout : Z) (first : nat) (retries : Z) :
  always_fails net url ->
  attempts_fail net (mkRequest url user_agent proxy timeout) first retries.
Proof. intros Hdown i _. by apply Hdown. Qed.

(** When its attempts all fail, a call makes them all and returns [None]. *)
Lemma fetch_page_all_fail (net : Network) (url : string)
    (user_agent proxy : option string) (retries : Z) (w : World) :
  attempts_fail net (mkRequest url (headers user_agent) proxy 10) (requests w) retries ->
  exists evs,
    fetch_page net url user_agent proxy retries w = (Ret None, after w evs)
    /\ Z.of_nat (gets evs) = Z.max 0 retries.
Proof.
  intros Hfail.
  destruct (fetch_page_run net url user_agent proxy retries w)
    as (evs & res & Hrun & [(Hle & -> & ->)|[Hpos Hatt]]).
  - exists []. split; [done|]. change (gets []) with 0%nat. lia.
  - apply attempts_all_fail in Hatt as [-> Hg]; [|by intros i Hi; apply Hfail|done].
    exists evs. split; [done|]. lia.
Qed.

(** The powers of two grow. *)
Lemma backoff_increasing (k n : nat) :
  StronglySorted Z.lt (List.map (fun i => 2 ^ Z.of_nat i) (seq k n)).
Proof.
  revert k. induction n as [|n IH]; intros k; simpl; constructor; [apply IH|].
  apply List.Forall_forall. intros x [i [<- [Hi _]%in_seq]]%in_map_iff.
  apply Z.pow_lt_mono_r; lia.
Qed.

(** A first attempt that succeeds is the only one. *)
Lemma fetch_page_first_succeeds (net : Network) (url : string)
    (user_agent proxy : option string) (retries : Z) (w : World) (content : string) :
  0 < retries ->
  net (requests w) (mkRequest url (headers user_agent) proxy 10) = Ret content ->
  fetch_page net url user_agent proxy retries w
  = (Ret (Some content), after w [EvGet (mkRequest url (headers user_agent) proxy 10)]).
Proof.
  intros Hpos Hok. unfold fetch_page, range.
  destruct (Z.to_nat retries) as [|m] eqn:Hm; [lia|].
  cbn [seq List.map]. by rewrite fetch_loop_cons, Hok.
Qed.

(** ** Facts on the parsed markup *)

(** [href] is on no tag an attribute held as a list: what [tag["href"]]
    returns is the string as written. *)
Lemma get_href (n : Node) : get n "href" = Str <$> tag_attrs n !! "href".
Proof.
  unfold get, is_list_attribute, cdata_list_attributes.
  destruct (tag_attrs n !! "href") as [raw|]; [|done].
  rewrite existsb_app. cbn [existsb]. cbn.
  by repeat destruct (String.eqb (tag_name n) _).
Qed.

(** ** Facts on the dictionaries of results *)

Lemma element_data_attrs_lookup (attributes : list string) (element : Node)
    (d : gmap string Value) (k : string) :
  foldl (fun (d : gmap string Value) attr =>
           match get element attr with
           | Some v => <[attr := v]> d
           | None => d
           end) d attributes !! k
  = if decide (k ∈ attributes)
    then match get element k with Some v => Some v | None => d !! k end
    else d !! k.
Proof.
  revert d. induction attributes as [|a l IH]; intros d.
  - destruct (decide (k ∈ [])) as [H|_]; [by apply not_elem_of_nil in H|done].
  - cbn [foldl]. rewrite IH.
    assert (k ∈ a :: l <-> k = a \/ k ∈ l) as Hcons by apply elem_of_cons.
    destruct (decide (k = a)) as [->|Hne].
    + destruct (decide (a ∈ a :: l)) as [_|Hn]; [|by destruct Hn; left].
      destruct (get element a) as [v|] eqn:Ha.
      * destruct (decide (a ∈ l)); [done|]. apply lookup_insert_eq.
      * by destruct (decide (a ∈ l)).
    + assert ((match get element a with
               | Some v => <[a:=v]> d
               | None => d
               end) !! k = d !! k) as ->.
      { destruct (get element a); [by rewrite lookup_insert_ne|done]. }
      destruct (decide (k ∈ l)) as [Hin|Hnin];
        destruct (decide (k ∈ a :: l)) as [Hin'|Hnin']; try done.
      * destruct Hnin'. by right.
      * apply Hcons in Hin' as [?|?]; done.
Qed.

(** The record of an element: the "text" entry, and of the other keys the
    listed attributes that the element has. *)
Lemma element_data_lookup (attributes : list string) (element : Node) (k : string) :
  element_data attributes element !! k
  = if decide (k = "text") then Some (Str (get_text element))
    else if decide (k ∈ attributes) then get element k
    else None.
Proof.
  unfold element_data. destruct (decide (k = "text")) as [->|Hne].
  - apply lookup_insert_eq.
  - rewrite lookup_insert_ne by done. rewrite element_data_attrs_lookup.
    rewrite lookup_empty. destruct (decide (k ∈ attributes)); [|done].
    by destruct (get element k).
Qed.

Lemma scrape_elements_lookup (soup : Node) (elements : gmap string (list string))
    (element_type : string) :
  scrape_elements soup elements !! element_type
  = (fun attributes => page_records attributes element_type soup)
      <$> elements !! element_type.
Proof.
  unfold scrape_elements. revert element_type.
  apply (map_fold_weak_ind
           (fun (r : gmap string (list (gmap string Value)))
                (m : gmap string (list string)) =>
              forall k, r !! k = (fun attributes => page_records attributes k soup) <$> m !! k)).
  - intros k. by rewrite !lookup_empty.
  - intros i attributes m r Hi IH k. cbv zeta.
    assert (forall (l : list Node) (acc : list (gmap string Value)),
              foldl (fun (results : gmap string (list (gmap string Value))) element =>
                       <[i := default [] (results !! i) ++ [element_data attributes element]]>
                         results)
                    (<[i := acc]> r) l
              = <[i := acc ++ (element_data attributes <$> l)]> r) as Hloop.
    { induction l as [|x l IHl]; intros acc; simpl.
      - by rewrite app_nil_r.
      - rewrite lookup_insert_eq, insert_insert_eq. simpl.
        rewrite IHl. by rewrite <- app_assoc. }
    rewrite Hloop. simpl.
    destruct (decide (i = k)) as [->|Hne].
    + by rewrite !lookup_insert_eq.
    + rewrite !lookup_insert_ne by done. apply IH.
Qed.

Lemma merge_results_lookup (all_results results : gmap string (list (gmap string Value)))
    (element_type : string) :
  merge_results all_results results !! element_type
  = match results !! element_type with
    | Some data => Some (default [] (all_results !! element_type) ++ data)
    | None => all_results !! element_type
    end.
Proof.
  unfold merge_results. revert element_type.
  apply (map_fold_weak_ind
           (fun (r m : gmap string (list (gmap string Value))) =>
              forall k, r !! k = match m !! k with
                                 | Some data => Some (default [] (all_results !! k) ++ data)
                                 | None => all_results !! k
                                 end)).
  - intros k. by rewrite lookup_empty.
  - intros i data m r Hi IH k. cbv zeta.
    destruct (decide (i = k)) as [->|Hne].
    + rewrite !lookup_insert_eq. f_equal. f_equal.
      specialize (IH k). rewrite Hi in IH.
      destruct (r !! k) as [l|] eqn:Hr.
      * by rewrite Hr, <- IH.
      * by rewrite lookup_insert_eq, <- IH.
    + rewrite !lookup_insert_ne by done.
      destruct (r !! i); [apply IH|].
      rewrite lookup_insert_ne by done. apply IH.
Qed.

Lemma merge_pages_lookup (elements : gmap string (list string)) (soups : list Node)
    (all_results : gmap string (list (gmap string Value))) (element_type : string) :
  merge_pages elements all_results soups !! element_type
  = match elements !! element_type, soups with
    | Some attributes, _ :: _ =>
        Some (default [] (all_results !! element_type)
              ++ concat (page_records attributes element_type <$> soups))
    | _, _ => all_results !! element_type
    end.
Proof.
  unfold merge_pages. revert all_results.
  induction soups as [|soup rest IH]; intros all_results; simpl.
  - by destruct (elements !! element_type).
  - rewrite IH, merge_results_lookup, scrape_elements_lookup.
    destruct (elements !! element_type) as [attributes|]; simpl; [|done].
    destruct rest as [|soup' rest]; simpl.
    + by rewrite app_nil_r.
    + by rewrite <- app_assoc.
Qed.

(** ** Facts on scrape_next_button *)

Section Crawl.

Variable parse : string -> Node.
Variable net : Network.
Variable elements : gmap string (list string).
Variable kwargs : Kwargs.

(** One iteration of the loop. *)
Lemma scrape_loop_S (n : nat) (url : string)
    (all_results : gmap string (list (gmap string Value))) (w : World) :
  scrape_loop parse net elements kwargs (S n) url all_results w =
  match fetch_page_kw net url kwargs (after w [EvLog (InfoScrapingPage url)]) with
  | (Ret None, w1) => (Ret all_results, w1)
  | (Ret (Some content), w1) =>
      if String.eqb content "" then (Ret all_results, w1)
      else
        let merged :=
          merge_results all_results (scrape_elements (parse content) elements) in
        match find (parse content) "a" "Next" with
        | None => (Ret merged, w1)
        | Some next_button =>
            match tag_attrs next_button !! "href" with
            | Some href => scrape_loop parse net elements kwargs n href merged w1
            | None => (Exc (KeyError "href"), w1)
            end
        end
  | (Exc e, w1) => (Exc e, w1)
  end.
Proof.
  cbn [scrape_loop]. unfold bind, logging, emit.
  destruct (fetch_page_kw net url kwargs _) as [[[content|]|e] w1]; try done.
  destruct (String.eqb content ""); [done|]. cbv zeta.
  destruct (find (parse content) "a" "Next") as [next_button|]; [|done].
  unfold getitem. by destruct (tag_attrs next_button !! "href").
Qed.

Lemma follows_loop url w soups url' w' :
  follows parse net kwargs url w soups url' w' ->
  forall (n : nat) (all_results : gmap string (list (gmap string Value))),
    scrape_loop parse net elements kwargs (length soups + n) url all_results w
    = scrape_loop parse net elements kwargs n url'
        (merge_pages elements all_results soups) w'.
Proof.
  induction 1 as [|url w content w1 next_button href soups url' w'
                   Hfetch Hne Hfind Hhref _ IH]; intros n all_results; [done|].
  cbn [length Nat.add]. rewrite scrape_loop_S, Hfetch.
  apply String.eqb_neq in Hne. rewrite Hne. cbv zeta.
  rewrite Hfind, Hhref. apply IH.
Qed.

(** The pages that a crawl of [follows] announces. *)
Lemma follows_events url w soups url' w' :
  follows parse net kwargs url w soups url' w' ->
  exists evs, w' = after w evs /\ length (pages_logged evs) = length soups.
Proof.
  induction 1 as [url w|url w content w1 next_button href soups url' w'
                   Hfetch _ _ _ _ (evs & -> & Hlen)].
  - exists []. by rewrite after_nil.
  - unfold fetch_page_kw in Hfetch.
    destruct (fetch_page_run net url (kw_user_agent kwargs) (kw_proxy kwargs)
                (default 3 (kw_retries kwargs))
                (after w [EvLog (InfoScrapingPage url)]))
      as (evs1 & res & Hrun & Hcases).
    rewrite Hrun in Hfetch. injection Hfetch as -> <-.
    rewrite !after_after. eexists. split; [done|].
    rewrite !pages_logged_app, !length_app, Hlen.
    destruct Hcases as [(_ & _ & [=])|[_ Hatt]].
    by rewrite (attempts_pages_logged _ _ _ _ _ _ _ Hatt).
Qed.

(** Every run of the loop: it ends, having announced and fetched at most
    one page per iteration, and it raises nothing but the [KeyError] of
    a "Next" link without target. *)
Lemma scrape_loop_run (n : nat) :
  forall (url : string) (all_results : gmap string (list (gmap string Value)))
         (w : World),
  exists res evs,
    scrape_loop parse net elements kwargs n url all_results w = (res, after w evs)
    /\ (length (pages_logged evs) <= n)%nat
    /\ Z.of_nat (gets evs) <= Z.of_nat n * Z.max 0 (default 3 (kw_retries kwargs))
    /\ ((exists agg, res = Ret agg)
        \/ (res = Exc (KeyError "href")
            /\ exists content next_button,
                 find (parse content) "a" "Next" = Some next_button
                 /\ tag_attrs next_button !! "href" = None)).
Proof.
  induction n as [|n IH]; intros url all_results w.
  - exists (Ret all_results), []. rewrite after_nil.
    split; [done|]. split; [simpl; lia|].
    split; [change (gets []) with 0%nat; lia|].
    left. by eexists.
  - rewrite scrape_loop_S. unfold fetch_page_kw.
    destruct (fetch_page_run net url (kw_user_agent kwargs) (kw_proxy kwargs)
                (default 3 (kw_retries kwargs))
                (after w [EvLog (InfoScrapingPage url)]))
      as (evs1 & res1 & -> & Hcases).
    set (retries := default 3 (kw_retries kwargs)) in *.
    assert (pages_logged evs1 = []
            /\ Z.of_nat (gets evs1) <= Z.max 0 retries) as [Hpl Hg].
    { destruct Hcases as [(_ & -> & _)|[Hpos Hatt]].
      - split; [done|]. change (gets []) with 0%nat. lia.
      - split; [by eapply attempts_pages_logged|].
        apply attempts_gets_le in Hatt; lia. }
    rewrite after_after.
    assert (exists evs,
               after w ([EvLog (InfoScrapingPage url)] ++ evs1) = after w evs
               /\ (length (pages_logged evs) <= S n)%nat
               /\ Z.of_nat (gets evs) <= Z.of_nat (S n) * Z.max 0 retries) as Hstop.
    { eexists. split; [done|].
      rewrite pages_logged_app, gets_app, Hpl, length_app.
      change (gets [EvLog _]) with 0%nat. split; [simpl; lia|nia]. }
    destruct res1 as [content|].
    2:{ destruct Hstop as (evs & -> & ? & ?).
        eexists _, evs. repeat split; [done..|]. left. by eexists. }
    destruct (String.eqb content "").
    { destruct Hstop as (evs & -> & ? & ?).
      eexists _, evs. repeat split; [done..|]. left. by eexists. }
    cbv zeta.
    destruct (find (parse content) "a" "Next") as [next_button|] eqn:Hfind.
    2:{ destruct Hstop as (evs & -> & ? & ?).
        eexists _, evs. repeat split; [done..|]. left. by eexists. }
    destruct (tag_attrs next_button !! "href") as [href|] eqn:Hhref.
    2:{ destruct Hstop as (evs & -> & ? & ?).
        eexists _, evs. repeat split; [done..|]. right. split; [done|].
        by exists content, next_button. }
    destruct (IH href
                (merge_results all_results (scrape_elements (parse content) elements))
                (after w ([EvLog (InfoScrapingPage url)] ++ evs1)))
      as (res & evs & -> & Hlen & Hgets & Hres).
    rewrite after_after. eexists res, _. split; [done|].
    rewrite !pages_logged_app, !gets_app, Hpl, !length_app.
    change (gets [EvLog _]) with 0%nat.
    split; [simpl; lia|]. split; [nia|done].
Qed.

(** A crawl that has followed fewer pages than [max_pages] goes on with
    the loop, at the address and with the aggregate it has reached. *)
Lemma crawl_to base_url (max_pages : Z) w soups url' w' :
  follows parse net kwargs base_url w soups url' w' ->
  Z.of_nat (length soups) < max_pages ->
  exists n : nat,
    scrape_next_button parse net base_url elements max_pages kwargs w
    = scrape_loop parse net elements kwargs (S n) url'
        (merge_pages elements ∅ soups) w'.
Proof.
  intros Hfollows Hlt. unfold scrape_next_button.
  remember (Z.to_nat max_pages - length soups - 1)%nat as n eqn:Hn.
  exists n.
  assert (Z.to_nat max_pages = (length soups + S n)%nat) as -> by lia.
  by apply follows_loop.
Qed.

(** A "Next" link without [href] on a page that was fetched raises
    [KeyError], whatever was collected before. *)
Lemma next_without_href_raises base_url (max_pages : Z) w soups url' w1
    content w2 next_button :
  follows parse net kwargs base_url w soups url' w1 ->
  Z.of_nat (length soups) < max_pages ->
  fetch_page_kw net url' kwargs (after w1 [EvLog (InfoScrapingPage url')])
    = (Ret (Some content), w2) ->
  content <> "" ->
  find (parse content) "a" "Next" = Some next_button ->
  tag_attrs next_button !! "href" = None ->
  scrape_next_button parse net base_url elements max_pages kwargs w
  = (Exc (KeyError "href"), w2).
Proof.
  intros Hfollows Hlt Hfetch Hne%String.eqb_neq Hfind Hhref.
  destruct (crawl_to _ _ _ _ _ _ Hfollows Hlt) as [n ->].
  rewrite scrape_loop_S, Hfetch, Hne. cbv zeta. by rewrite Hfind, Hhref.
Qed.

(** On a site without end, the loop runs all its iterations. *)
Lemma scrape_loop_endless (n : nat) :
  always_answers net ->
  always_next parse ->
  0 < default 3 (kw_retries kwargs) ->
  forall (url : string) (all_results : gmap string (list (gmap string Value)))
         (w : World),
  exists agg evs,
    scrape_loop parse net elements kwargs n url all_results w = (Ret agg, after w evs)
    /\ length (pages_logged evs) = n
    /\ gets evs = n.
Proof.
  intros Hnet Hparse Hretries.
  induction n as [|n IH]; intros url all_results w.
  - exists all_results, []. by rewrite after_nil.
  - rewrite scrape_loop_S. unfold fetch_page_kw.
    destruct (Hnet (requests (after w [EvLog (InfoScrapingPage url)]))
                (mkRequest url (headers (kw_user_agent kwargs)) (kw_proxy kwargs) 10))
      as (content & Hok & Hne%String.eqb_neq).
    rewrite (fetch_page_first_succeeds _ _ _ _ _ _ content Hretries Hok), Hne.
    cbv zeta.
    destruct (Hparse content) as (next_button & href & -> & ->).
    destruct (IH href
                (merge_results all_results (scrape_elements (parse content) elements))
                (after (after w [EvLog (InfoScrapingPage url)])
                   [EvGet (mkRequest url (headers (kw_user_agent kwargs))
                             (kw_proxy kwargs) 10)]))
      as (agg & evs & -> & Hlen & Hgets).
    rewrite !after_after. eexists agg, _. split; [done|].
    rewrite !pages_logged_app, !gets_app, !length_app, Hlen, Hgets. done.
Qed.

End Crawl.

(** ** The model at work *)

Example get_text_strips :
  get_text (Tag "h1" ∅ [NavigableString "  Bye
"]) = "Bye".
Proof. reflexivity. Qed.

Example get_text_joins_nested_text :
  get_text (Tag "h1" ∅ [NavigableString "Page "; Tag "b" ∅ [NavigableString "two"]])
  = "Pagetwo".
Proof. reflexivity. Qed.

Example find_next_is_exact :
  find page2 "a" "Next" = None
  /\ find (document [Tag "a" ∅ [NavigableString " Next "]]) "a" "Next" = None
  /\ find (document [Tag "a" ∅ [Tag "span" ∅ [NavigableString "Next"]]]) "a" "Next"
     = Some (Tag "a" ∅ [Tag "span" ∅ [NavigableString "Next"]]).
Proof. by vm_compute. Qed.

Example get_of_a_list_attribute :
  get (Tag "h1" {["class" := " a  b "; "id" := "x y"]} []) "class"
    = Some (StrList ["a"; "b"])
  /\ get (Tag "h1" {["class" := " a  b "; "id" := "x y"]} []) "id"
     = Some (Str "x y")
  /\ get (Tag "a" {["rel" := "next nofollow"]} []) "rel"
     = Some (StrList ["next"; "nofollow"])
  /\ get (Tag "p" {["rel" := "next nofollow"]} []) "rel"
     = Some (Str "next nofollow")
  /\ get (Tag "h1" {["class" := ""]} []) "class" = Some (StrList [])
  /\ get (Tag "h1" ∅ []) "class" = None.
Proof. by vm_compute. Qed.

Example comments_count_as_children_not_as_text :
  find (document [Tag "a" {["href" := "http://site/2"]}
                    [NavigableString "Next"; Comment " more "]]) "a" "Next"
    = None
  /\ get_text (Tag "a" {["href" := "http://site/2"]}
                 [NavigableString "Next"; Comment " more "]) = "Next".
Proof. by vm_compute. Qed.

Example fetch_page_on_a_dead_server :
  fetch_page net_down "http://site/1" None None 3 world0
  = (Ret None,
     after world0
       (let req := mkRequest "http://site/1" (hd "" USER_AGENTS) None 10 in
        let e := ClientError "connection refused" in
        [EvGet req; EvLog (WarnAttemptFailed 1 "http://site/1" e); EvSleep 1;
         EvGet req; EvLog (WarnAttemptFailed 2 "http://site/1" e); EvSleep 2;
         EvGet req; EvLog (WarnAttemptFailed 3 "http://site/1" e);
         EvLog (ErrorFetchFailed "http://site/1" 3)])).
Proof. reflexivity. Qed.

Example fetch_page_without_attempts :
  fetch_page net_down "http://site/1" None None 0 world0 = (Ret None, world0).
Proof. reflexivity. Qed.

Example crawl_of_two_pages :
  (scrape_next_button site_parse site_net "http://site/1" h1_class 10 no_kwargs
     world0).1
  = Ret {["h1" := [ {["class" := StrList ["a"]; "text" := Str "Hi"]};
                    {["text" := Str "Bye"]};
                    {["class" := StrList ["b"]; "text" := Str "Pagetwo"]} ]]}.
Proof. by vm_compute. Qed.

Example crawl_capped_at_one_page :
  (scrape_next_button site_parse site_net "http://site/1" h1_class 1 no_kwargs
     world0).1
  = Ret {["h1" := [ {["class" := StrList ["a"]; "text" := Str "Hi"]}; {["text" := Str "Bye"]} ]]}.
Proof. by vm_compute. Qed.

(** * The claims *)

(** ** Fetcher *)

(** C1, as stated: a permanently failing URL would be tried [r + 1] times.
    With the default [retries = 3] and a server that is down, the
    requests sent are three, not four. *)
Lemma fetch_page_attempts_counterexample :
  always_fails net_down "http://site/1"
  /\ ~ (Z.of_nat (gets (trace (fetch_page net_down "http://site/1" None None 3 world0).2))
        = 3 + 1).
Proof.
  split.
  - intros n q _. by eexists.
  - vm_compute. discriminate.
Qed.

(** C1, amended: for every [retries = r >= 0], a call on a URL whose every
    attempt fails sends exactly [r] requests, raises nothing and returns
    [None]. *)
Theorem fetch_page_attempts (net : Network) (url : string)
    (user_agent proxy : option string) (r : Z) (w : World) :
  0 <= r ->
  always_fails net url ->
  exists evs,
    fetch_page net url user_agent proxy r w = (Ret None, after w evs)
    /\ Z.of_nat (gets evs) = r.
Proof.
  intros Hr Hdown.
  destruct (fetch_page_all_fail net url user_agent proxy r w) as (evs & Hrun & Hg).
  - by apply always_fails_attempts_fail.
  - exists evs. split; [done|]. lia.
Qed.

Lemma fetch_page_attempts_witness :
  exists evs,
    fetch_page net_down "http://site/1" None None 3 world0 = (Ret None, after world0 evs)
    /\ Z.of_nat (gets evs) = 3.
Proof.
  apply (fetch_page_attempts net_down "http://site/1" None None 3 world0).
  - lia.
  - intros n q _. by eexists.
Defined.

(** C4: a call of [fetch_page] raises nothing, and what it does is one of
    the runs of [attempts]: the failed attempt number [k], when it is not
    the last one allowed, is followed by a wait of exactly [2 ^ k] seconds
    and then by the next attempt; nothing else waits.  So the waits of a
    call are 1, 2, 4, ... in this order, one for each request but the last,
    and they increase strictly. *)
Theorem fetch_page_backoff (net : Network) (url : string)
    (user_agent proxy : option string) (retries : Z) (w : World) :
  exists evs res,
    fetch_page net url user_agent proxy retries w = (Ret res, after w evs)
    /\ ((retries <= 0 /\ evs = [])
        \/ attempts net (mkRequest url (headers user_agent) proxy 10)
             retries 0 (requests w) evs res)
    /\ sleeps evs = List.map (fun i => 2 ^ Z.of_nat i) (seq 0 (gets evs - 1))
    /\ StronglySorted Z.lt (sleeps evs).
Proof.
  destruct (fetch_page_run net url user_agent proxy retries w)
    as (evs & res & Hrun & Hcases).
  exists evs, res. split; [done|].
  assert (sleeps evs = List.map (fun i => 2 ^ Z.of_nat i) (seq 0 (gets evs - 1)))
    as Hs.
  { destruct Hcases as [(_ & -> & _)|[_ Hatt]]; [done|].
    by eapply attempts_sleeps. }
  split; [|split; [done|]].
  - destruct Hcases as [(? & ? & _)|[_ ?]]; [by left|by right].
  - rewrite Hs. apply backoff_increasing.
Qed.

(** ** Extractor *)

(** C8, on the code: for every page and specification the result has,
    under each selector of the specification and under no other key, one
    record per element that matches, in document order; a record has the
    key "text", with the text of the element, and of the other keys
    exactly the listed attributes that the element has, an absent one
    getting no entry.  But the value of an attribute is what [element[attr]]
    returns, and for [class] that is the list of the classes: on the page
    with the two headings the first record is
    [{"class": ["a"], "text": "Hi"}], not [{"class": "a", "text": "Hi"}]
    as the scenario has it. *)
Theorem scrape_elements_records (soup : Node) (elements : gmap string (list string)) :
  (forall element_type : string,
     scrape_elements soup elements !! element_type
     = (fun attributes => element_data attributes <$> find_all soup element_type)
         <$> elements !! element_type)
  /\ (forall (attributes : list string) (element : Node) (k : string),
        element_data attributes element !! k
        = if decide (k = "text") then Some (Str (get_text element))
          else if decide (k ∈ attributes) then get element k
          else None)
  /\ scrape_elements two_headings {["h1" := ["class"]]}
     = {["h1" := [ {["class" := StrList ["a"]; "text" := Str "Hi"]};
                   {["text" := Str "Bye"]} ]]}
  /\ scrape_elements two_headings {["h1" := ["class"]]}
     <> {["h1" := [ {["class" := Str "a"; "text" := Str "Hi"]};
                    {["text" := Str "Bye"]} ]]}.
Proof.
  split; [|split; [|split]].
  - intros element_type. apply scrape_elements_lookup.
  - apply element_data_lookup.
  - by vm_compute.
  - intros Heq. vm_compute in Heq. discriminate Heq.
Qed.

(** ** Output *)

(** C9: with a format that is neither "json" nor "csv", [save_results]
    writes no file, logs the error and returns without raising. *)
Theorem save_results_unsupported (results : gmap string (list (gmap string Value)))
    (output_format filename : string) (w : World) :
  output_format <> "json" ->
  output_format <> "csv" ->
  exists w',
    save_results results output_format filename w = (Ret tt, w')
    /\ files w' = files w
    /\ trace w' = trace w ++ [EvLog ErrorUnsupportedFormat].
Proof.
  intros Hjson%String.eqb_neq Hcsv%String.eqb_neq.
  unfold save_results. rewrite Hjson, Hcsv.
  by eexists.
Qed.

Lemma save_results_unsupported_witness :
  exists w',
    save_results (scrape_elements two_headings h1_class) "xml" "output" world0
      = (Ret tt, w')
    /\ files w' = files world0
    /\ trace w' = trace world0 ++ [EvLog ErrorUnsupportedFormat].
Proof.
  apply (save_results_unsupported (scrape_elements two_headings h1_class)
           "xml" "output" world0); discriminate.
Defined.

(** ** Paginator *)

(** The crawls of the concrete site that the examples use. *)
Lemma site_follows_page1 :
  follows site_parse site_net no_kwargs "http://site/1" world0
    [site_parse "<page1>"] "http://site/2"
    (after world0 [EvLog (InfoScrapingPage "http://site/1");
                   EvGet (mkRequest "http://site/1" (headers None) None 10)]).
Proof.
  eapply (follows_next _ _ _ _ _ "<page1>"); [by vm_compute|done|by vm_compute..|].
  apply follows_here.
Qed.

(** C6: when the crawl has followed the "Next" links of the pages [soups]
    and the page it fetches then, within [max_pages], has no link whose
    text is exactly "Next", it stops there: no further page is announced
    or requested, and the aggregate has, under each selector of the
    specification and under no other key, the records of the pages in
    crawl order, this last page included, those of a page in document
    order. *)
Theorem crawl_stops_without_next (parse : string -> Node) (net : Network)
    (elements : gmap string (list string)) (kwargs : Kwargs)
    (base_url : string) (max_pages : Z) (w : World) (soups : list Node)
    (url' : string) (w1 : World) (content : string) (w2 : World) :
  follows parse net kwargs base_url w soups url' w1 ->
  Z.of_nat (length soups) < max_pages ->
  fetch_page_kw net url' kwargs (after w1 [EvLog (InfoScrapingPage url')])
    = (Ret (Some content), w2) ->
  content <> "" ->
  find (parse content) "a" "Next" = None ->
  exists agg evs,
    scrape_next_button parse net base_url elements max_pages kwargs w = (Ret agg, w2)
    /\ w2 = after w evs
    /\ length (pages_logged evs) = length (soups ++ [parse content])
    /\ forall element_type : string,
         agg !! element_type
         = (fun attributes =>
              concat (page_records attributes element_type
                        <$> soups ++ [parse content]))
             <$> elements !! element_type.
Proof.
  intros Hfollows Hlt Hfetch Hne Hfind.
  destruct (crawl_to parse net elements kwargs _ _ _ _ _ _ Hfollows Hlt) as [n Hrun].
  exists (merge_pages elements ∅ (soups ++ [parse content])).
  assert (follows parse net kwargs url' w1 [] url' w1) as Hlast by constructor.
  destruct (follows_events parse net kwargs _ _ _ _ _ Hfollows) as (evs0 & -> & Hlen0).
  unfold fetch_page_kw in Hfetch.
  destruct (fetch_page_run net url' (kw_user_agent kwargs) (kw_proxy kwargs)
              (default 3 (kw_retries kwargs))
              (after (after w evs0) [EvLog (InfoScrapingPage url')]))
    as (evs1 & res & Hrun1 & Hcases).
  assert (pages_logged evs1 = []) as Hpl.
  { destruct Hcases as [(_ & -> & _)|[_ Hatt]]; [done|].
    by eapply attempts_pages_logged. }
  rewrite Hfetch in Hrun1. injection Hrun1 as <- ->.
  rewrite !after_after. eexists. split; [|split; [done|split]].
  - rewrite Hrun, scrape_loop_S. unfold fetch_page_kw.
    rewrite Hfetch, !after_after.
    apply String.eqb_neq in Hne. rewrite Hne. cbv zeta. rewrite Hfind.
    unfold merge_pages. by rewrite foldl_app.
  - rewrite !pages_logged_app, !length_app, Hlen0, Hpl. done.
  - intros element_type. rewrite merge_pages_lookup, lookup_empty.
    destruct (elements !! element_type) as [attributes|]; [|done].
    by destruct soups.
Qed.

Lemma crawl_stops_without_next_witness :
  exists agg evs,
    scrape_next_button site_parse site_net "http://site/1" h1_class 10 no_kwargs world0
      = (Ret agg,
         after world0 [EvLog (InfoScrapingPage "http://site/1");
                       EvGet (mkRequest "http://site/1" (headers None) None 10);
                       EvLog (InfoScrapingPage "http://site/2");
                       EvGet (mkRequest "http://site/2" (headers None) None 10)])
    /\ after world0 [EvLog (InfoScrapingPage "http://site/1");
                     EvGet (mkRequest "http://site/1" (headers None) None 10);
                     EvLog (InfoScrapingPage "http://site/2");
                     EvGet (mkRequest "http://site/2" (headers None) None 10)]
       = after world0 evs
    /\ length (pages_logged evs)
       = length ([site_parse "<page1>"] ++ [site_parse "<page2>"])
    /\ forall element_type : string,
         agg !! element_type
         = (fun attributes =>
              concat (page_records attributes element_type
                        <$> [site_parse "<page1>"] ++ [site_parse "<page2>"]))
             <$> h1_class !! element_type.
Proof.
  apply (crawl_stops_without_next site_parse site_net h1_class no_kwargs
           "http://site/1" 10 world0 [site_parse "<page1>"] "http://site/2"
           (after world0 [EvLog (InfoScrapingPage "http://site/1");
                          EvGet (mkRequest "http://site/1" (headers None) None 10)])
           "<page2>").
  - exact site_follows_page1.
  - simpl. lia.
  - by vm_compute.
  - discriminate.
  - by vm_compute.
Defined.

Lemma site_follows_pageA :
  follows site_parse site_net no_kwargs "http://site/a" world0
    [site_parse "<pageA>"] "http://site/dead"
    (after world0 [EvLog (InfoScrapingPage "http://site/a");
                   EvGet (mkRequest "http://site/a" (headers None) None 10)]).
Proof.
  eapply (follows_next _ _ _ _ _ "<pageA>"); [by vm_compute|done|by vm_compute..|].
  apply follows_here.
Qed.

Lemma site_follows_pageB :
  follows site_parse site_net no_kwargs "http://site/b" world0
    [site_parse "<pageB>"] "http://site/empty"
    (after world0 [EvLog (InfoScrapingPage "http://site/b");
                   EvGet (mkRequest "http://site/b" (headers None) None 10)]).
Proof.
  eapply (follows_next _ _ _ _ _ "<pageB>"); [by vm_compute|done|by vm_compute..|].
  apply follows_here.
Qed.

Lemma broken_follows_pageD :
  follows broken_parse site_net no_kwargs "http://site/d" world0
    [broken_parse "<pageD>"] "http://site/c"
    (after world0 [EvLog (InfoScrapingPage "http://site/d");
                   EvGet (mkRequest "http://site/d" (headers None) None 10)]).
Proof.
  eapply (follows_next _ _ _ _ _ "<pageD>"); [by vm_compute|done|by vm_compute..|].
  apply follows_here.
Qed.

(** C7: no call of [fetch_page] lets an exception out; when the attempts
    of a call all fail, the last one allowed included, it returns [None];
    and when the paginator, having followed the pages [soups], gets this
    [None], it stops and returns what these pages gave. *)
Theorem fetch_failure_is_returned (parse : string -> Node) (net : Network)
    (elements : gmap string (list string)) (kwargs : Kwargs) :
  (forall url user_agent proxy retries w,
     exists res evs,
       fetch_page net url user_agent proxy retries w = (Ret res, after w evs))
  /\ (forall url user_agent proxy retries w,
        attempts_fail net (mkRequest url (headers user_agent) proxy 10)
          (requests w) retries ->
        exists evs,
          fetch_page net url user_agent proxy retries w = (Ret None, after w evs))
  /\ (forall base_url max_pages w soups url' w1 w2,
        follows parse net kwargs base_url w soups url' w1 ->
        Z.of_nat (length soups) < max_pages ->
        fetch_page_kw net url' kwargs (after w1 [EvLog (InfoScrapingPage url')])
          = (Ret None, w2) ->
        scrape_next_button parse net base_url elements max_pages kwargs w
        = (Ret (merge_pages elements ∅ soups), w2)).
Proof.
  split; [|split].
  - intros url user_agent proxy retries w.
    destruct (fetch_page_run net url user_agent proxy retries w)
      as (evs & res & Hrun & _).
    by exists res, evs.
  - intros url user_agent proxy retries w Hfail.
    destruct (fetch_page_all_fail net url user_agent proxy retries w Hfail)
      as (evs & Hrun & _).
    by exists evs.
  - intros base_url max_pages w soups url' w1 w2 Hfollows Hlt Hfetch.
    destruct (crawl_to parse net elements kwargs _ _ _ _ _ _ Hfollows Hlt) as [n ->].
    by rewrite scrape_loop_S, Hfetch.
Qed.

Lemma fetch_failure_is_returned_witness :
  (exists evs,
     fetch_page site_net "http://site/dead" None None 3 world0
     = (Ret None, after world0 evs))
  /\ exists w2,
      fetch_page_kw site_net "http://site/dead" no_kwargs
        (after (after world0 [EvLog (InfoScrapingPage "http://site/a");
                              EvGet (mkRequest "http://site/a" (headers None) None 10)])
           [EvLog (InfoScrapingPage "http://site/dead")])
      = (Ret None, w2)
      /\ scrape_next_button site_parse site_net "http://site/a" h1_class 10
           no_kwargs world0
         = (Ret (merge_pages h1_class ∅ [site_parse "<pageA>"]), w2).
Proof.
  destruct (fetch_failure_is_returned site_parse site_net h1_class no_kwargs)
    as (_ & Hnone & Hstop).
  split.
  - apply Hnone. intros i _. by eexists.
  - eexists. split; [by vm_compute|].
    apply (Hstop "http://site/a" 10 world0 [site_parse "<pageA>"] "http://site/dead"
             (after world0 [EvLog (InfoScrapingPage "http://site/a");
                            EvGet (mkRequest "http://site/a" (headers None) None 10)])).
    + exact site_follows_pageA.
    + simpl. lia.
    + by vm_compute.
Defined.

(** C10: when a fetch succeeds with the empty string, the paginator stops
    as it does on a failed fetch: it returns what the pages before gave,
    and the empty page is neither parsed nor merged nor searched for a
    link. *)
Theorem empty_content_stops_crawl (parse : string -> Node) (net : Network)
    (elements : gmap string (list string)) (kwargs : Kwargs)
    (base_url : string) (max_pages : Z) (w : World) (soups : list Node)
    (url' : string) (w1 w2 : World) (failure : option string) :
  follows parse net kwargs base_url w soups url' w1 ->
  Z.of_nat (length soups) < max_pages ->
  failure = Some "" \/ failure = None ->
  fetch_page_kw net url' kwargs (after w1 [EvLog (InfoScrapingPage url')])
    = (Ret failure, w2) ->
  scrape_next_button parse net base_url elements max_pages kwargs w
  = (Ret (merge_pages elements ∅ soups), w2).
Proof.
  intros Hfollows Hlt Hfailure Hfetch.
  destruct (crawl_to parse net elements kwargs _ _ _ _ _ _ Hfollows Hlt) as [n ->].
  rewrite scrape_loop_S, Hfetch.
  by destruct Hfailure as [->| ->].
Qed.

Lemma empty_content_stops_crawl_witness :
  scrape_next_button site_parse site_net "http://site/b" h1_class 10 no_kwargs world0
  = (Ret (merge_pages h1_class ∅ [site_parse "<pageB>"]),
     after world0 [EvLog (InfoScrapingPage "http://site/b");
                   EvGet (mkRequest "http://site/b" (headers None) None 10);
                   EvLog (InfoScrapingPage "http://site/empty");
                   EvGet (mkRequest "http://site/empty" (headers None) None 10)]).
Proof.
  apply (empty_content_stops_crawl site_parse site_net h1_class no_kwargs
           "http://site/b" 10 world0 [site_parse "<pageB>"] "http://site/empty"
           (after world0 [EvLog (InfoScrapingPage "http://site/b");
                          EvGet (mkRequest "http://site/b" (headers None) None 10)])
           _ (Some "")).
  - exact site_follows_pageB.
  - simpl. lia.
  - by left.
  - by vm_compute.
Defined.

(** C2, on the code: the crawl starts at a page whose "Next" leads to a
    page whose "Next" link has no [href].  Both pages are fetched and
    their records merged; then [next_button["href"]] raises [KeyError],
    which leaves [scrape_next_button]: nothing is returned. *)
Theorem next_without_href_raises_on_site :
  scrape_next_button broken_parse site_net "http://site/d" h1_class 10 no_kwargs world0
  = (Exc (KeyError "href"),
     after world0 [EvLog (InfoScrapingPage "http://site/d");
                   EvGet (mkRequest "http://site/d" (headers None) None 10);
                   EvLog (InfoScrapingPage "http://site/c");
                   EvGet (mkRequest "http://site/c" (headers None) None 10)]).
Proof.
  apply (next_without_href_raises broken_parse site_net h1_class no_kwargs
           "http://site/d" 10 world0 [broken_parse "<pageD>"] "http://site/c"
           (after world0 [EvLog (InfoScrapingPage "http://site/d");
                          EvGet (mkRequest "http://site/d" (headers None) None 10)])
           "<pageC>" _ (Tag "a" ∅ [NavigableString "Next"])).
  - exact broken_follows_pageD.
  - simpl. lia.
  - by vm_compute.
  - discriminate.
  - by vm_compute.
  - by vm_compute.
Qed.

Lemma endless_always_next : always_next endless_parse.
Proof. intros content. by eexists _, _. Qed.

Lemma endless_always_answers : always_answers endless_net.
Proof. intros n q. by exists "<more>". Qed.


Section CrawlRaises.

Variable parse : string -> Node.
Variable net : Network.
Variable elements : gmap string (list string).
Variable kwargs : Kwargs.


End CrawlRaises.



(** C5: every call ends, having announced, and so fetched, at most
    [max_pages] pages (none when [max_pages] is negative), with at most
    [retries] requests for each.  On a site where every request is
    answered and every page has a "Next" link with a target, it is
    [max_pages] that ends the crawl: exactly so many pages are fetched,
    and the aggregate is returned. *)
Theorem scrape_next_button_page_cap (parse : string -> Node) (net : Network)
    (base_url : string) (elements : gmap string (list string)) (max_pages : Z)
    (kwargs : Kwargs) (w : World) :
  exists res evs,
    scrape_next_button parse net base_url elements max_pages kwargs w
      = (res, after w evs)
    /\ Z.of_nat (length (pages_logged evs)) <= Z.max 0 max_pages
    /\ Z.of_nat (gets evs)
       <= Z.max 0 max_pages * Z.max 0 (default 3 (kw_retries kwargs))
    /\ (always_answers net ->
        always_next parse ->
        0 < default 3 (kw_retries kwargs) ->
        Z.of_nat (length (pages_logged evs)) = Z.max 0 max_pages
        /\ exists agg, res = Ret agg).
Proof.
  unfold scrape_next_button.
  destruct (scrape_loop_run parse net elements kwargs (Z.to_nat max_pages) base_url ∅ w)
    as (res & evs & Hrun & Hlen & Hgets & _).
  exists res, evs. split; [done|]. split; [lia|]. split; [lia|].
  intros Hnet Hparse Hretries.
  destruct (scrape_loop_endless parse net elements kwargs (Z.to_nat max_pages)
              Hnet Hparse Hretries base_url ∅ w)
    as (agg & evs' & Hrun' & Hlen' & _).
  rewrite Hrun in Hrun'. injection Hrun' as -> _ Htrace.
  apply app_inv_head in Htrace as <-.
  split; [lia|by exists agg].
Qed.

Lemma scrape_next_button_page_cap_witness :
  exists res evs,
    scrape_next_button endless_parse endless_net "http://site/more" h1_class 2
      no_kwargs world0 = (res, after world0 evs)
    /\ Z.of_nat (length (pages_logged evs)) = 2
    /\ exists agg, res = Ret agg.
Proof.
  destruct (scrape_next_button_page_cap endless_parse endless_net "http://site/more"
              h1_class 2 no_kwargs world0)
    as (res & evs & Hrun & _ & _ & Hcap).
  exists res, evs. split; [exact Hrun|].
  apply Hcap.
  - exact endless_always_answers.
  - exact endless_always_next.
  - simpl. lia.
Defined.

(** * Further properties of the code *)

(** ** fetch_page *)

Section FetcherRuns.

Variable net : Network.
Variable req : Request.
Variable retries : Z.

(** A run whose first [k] attempts fail and whose next one succeeds
    returns the text of that one, after [k + 1] requests. *)
Lemma attempts_until_success j n evs res (k : nat) (text : string) :
  attempts net req retries j n evs res ->
  Z.of_nat j + Z.of_nat k < retries ->
  (forall i : nat, (i < k)%nat -> exists e, net (n + i)%nat req = Exc e) ->
  net (n + k)%nat req = Ret text ->
  res = Some text /\ gets evs = S k.
Proof.
  intros Hatt. revert k.
  induction Hatt as [j n text0 Hok|j n e Hexc Hj|j n e evs res Hexc Hj _ IH];
    intros k Hlt Hfail Hsucc.
  - destruct k as [|k].
    + rewrite Nat.add_0_r in Hsucc. split; [congruence|done].
    + destruct (Hfail 0%nat) as [e He]; [lia|].
      rewrite Nat.add_0_r in He. congruence.
  - destruct k as [|k]; [|lia].
    rewrite Nat.add_0_r in Hsucc. congruence.
  - destruct k as [|k].
    + rewrite Nat.add_0_r in Hsucc. congruence.
    + destruct (IH k) as [-> Hg].
      * lia.
      * intros i Hi. destruct (Hfail (S i)) as [e' He']; [lia|].
        exists e'. by rewrite <- He', <- Nat.add_assoc.
      * by rewrite <- Hsucc, <- Nat.add_assoc.
      * split; [done|]. change (gets _) with (S (gets evs)). by rewrite Hg.
Qed.

(** Every request of a run is the request of the call. *)
Lemma attempts_requests_sent j n evs res :
  attempts net req retries j n evs res ->
  requests_sent evs = repeat req (gets evs).
Proof.
  induction 1 as [| |j n e evs res _ _ _ IH]; [done..|].
  change (requests_sent _) with (req :: requests_sent evs).
  change (gets _) with (S (gets evs)). by rewrite IH.
Qed.

(** The warnings of a run count the failed attempts from [j + 1] on, and
    the error is logged when the run gives up, and only then. *)
Lemma attempts_logs j n evs res :
  attempts net req retries j n evs res ->
  warnings evs
  = List.map (fun i => Z.of_nat i + 1)
      (seq j (match res with Some _ => gets evs - 1 | None => gets evs end))
  /\ fetch_errors evs = match res with Some _ => 0%nat | None => 1%nat end.
Proof.
  induction 1 as [| |j n e evs res _ _ Hrest [IHw IHe]]; [done..|].
  change (warnings _) with (Z.of_nat j + 1 :: warnings evs).
  change (fetch_errors _) with (fetch_errors evs).
  change (gets _) with (S (gets evs)).
  assert (gets evs <> 0%nat) by (inversion Hrest; simpl; discriminate).
  split; [|done]. rewrite IHw, (Nat.add_1_r j).
  destruct res; [|done].
  destruct (gets evs) as [|g]; [done|]. simpl. by rewrite Nat.sub_0_r.
Qed.

End FetcherRuns.

Lemma total_backoff (k n : nat) :
  total (List.map (fun i => 2 ^ Z.of_nat i) (seq k n))
  = 2 ^ Z.of_nat (k + n) - 2 ^ Z.of_nat k.
Proof.
  revert k. induction n as [|n IH]; intros k.
  - rewrite Nat.add_0_r. simpl. lia.
  - cbn [seq List.map total foldr]. fold (total (List.map (fun i => 2 ^ Z.of_nat i) (seq (S k) n))).
    rewrite IH.
    replace (Z.of_nat (S k + n)) with (Z.of_nat (k + S n)) by lia.
    replace (Z.of_nat (S k)) with (Z.of_nat k + 1) by lia.
    rewrite Z.pow_add_r by lia. lia.
Qed.

(** X1: a call with [retries <= 0] makes no attempt at all: it sends no
    request, logs nothing, waits for nothing and returns [None]. *)
Theorem fetch_page_no_attempt (net : Network) (url : string)
    (user_agent proxy : option string) (retries : Z) (w : World) :
  retries <= 0 ->
  fetch_page net url user_agent proxy retries w = (Ret None, w).
Proof.
  intros Hle. unfold fetch_page, range.
  by replace (Z.to_nat retries) with 0%nat by lia.
Qed.

Lemma fetch_page_no_attempt_witness :
  fetch_page site_net "http://site/1" None None (-2) world0 = (Ret None, world0).
Proof.
  apply (fetch_page_no_attempt site_net "http://site/1" None None (-2) world0). lia.
Defined.

(** X2: when the first [k] attempts of a call fail and the next one, still
    within [retries], succeeds, the call returns the text of that attempt,
    having sent [k + 1] requests and waited 1, 2, ..., [2 ^ (k - 1)]
    seconds between them. *)
Theorem fetch_page_retries_until_success (net : Network) (url : string)
    (user_agent proxy : option string) (retries : Z) (w : World)
    (k : nat) (text : string) :
  Z.of_nat k < retries ->
  (forall i : nat, (i < k)%nat ->
     exists e, net (requests w + i)%nat (mkRequest url (headers user_agent) proxy 10)
               = Exc e) ->
  net (requests w + k)%nat (mkRequest url (headers user_agent) proxy 10) = Ret text ->
  exists evs,
    fetch_page net url user_agent proxy retries w = (Ret (Some text), after w evs)
    /\ gets evs = S k
    /\ sleeps evs = List.map (fun i => 2 ^ Z.of_nat i) (seq 0 k).
Proof.
  intros Hlt Hfail Hsucc.
  destruct (fetch_page_run net url user_agent proxy retries w)
    as (evs & res & Hrun & [(Hle & _)|[_ Hatt]]); [lia|].
  destruct (attempts_until_success _ _ _ _ _ _ _ k text Hatt) as [-> Hg];
    [lia|done..|].
  exists evs. split; [done|]. split; [done|].
  rewrite (attempts_sleeps _ _ _ _ _ _ _ Hatt), Hg. simpl. by rewrite Nat.sub_0_r.
Qed.

Lemma fetch_page_retries_until_success_witness :
  exists evs,
    fetch_page (flaky_net 2) "http://site/2" None None 3 world0
      = (Ret (Some "<page2>"), after world0 evs)
    /\ gets evs = 3%nat
    /\ sleeps evs = List.map (fun i => 2 ^ Z.of_nat i) (seq 0 2).
Proof.
  apply (fetch_page_retries_until_success (flaky_net 2) "http://site/2" None None 3
           world0 2 "<page2>").
  - lia.
  - intros i Hi. exists (ClientError "timeout"). unfold flaky_net. simpl.
    by destruct i as [|[|i]]; [..|lia].
  - reflexivity.
Defined.

(** X3: the waits of a call add up to [2 ^ (g - 1) - 1] seconds, [g]
    being the number of requests it sends; so a call never waits
    [2 ^ (retries - 1)] seconds or more in all. *)
Theorem fetch_page_total_backoff (net : Network) (url : string)
    (user_agent proxy : option string) (retries : Z) (w : World) :
  exists evs res,
    fetch_page net url user_agent proxy retries w = (Ret res, after w evs)
    /\ total (sleeps evs) = 2 ^ Z.of_nat (gets evs - 1) - 1
    /\ total (sleeps evs) < 2 ^ (Z.max 1 retries - 1).
Proof.
  destruct (fetch_page_run net url user_agent proxy retries w)
    as (evs & res & Hrun & Hcases).
  exists evs, res. split; [done|].
  destruct Hcases as [(Hle & -> & _)|[Hpos Hatt]].
  - split; [done|]. change (total (sleeps [])) with 0.
    apply Z.pow_pos_nonneg; lia.
  - rewrite (attempts_sleeps _ _ _ _ _ _ _ Hatt), total_backoff.
    change (2 ^ Z.of_nat 0) with 1. rewrite Nat.add_0_l. split; [done|].
    apply attempts_gets_le in Hatt; [|lia].
    assert (2 ^ Z.of_nat (gets evs - 1) <= 2 ^ (Z.max 1 retries - 1)).
    { apply Z.pow_le_mono_r; lia. }
    lia.
Qed.

(** X4: the requests of a call are all the same: to the URL of the call,
    through its proxy, with a timeout of 10 seconds and with the
    User-Agent of the caller or, when the caller gives none or an empty
    one, the first of [USER_AGENTS]; so no request goes out with an empty
    User-Agent. *)
Theorem fetch_page_requests (net : Network) (url : string)
    (user_agent proxy : option string) (retries : Z) (w : World) :
  exists evs res,
    fetch_page net url user_agent proxy retries w = (Ret res, after w evs)
    /\ requests_sent evs
       = repeat (mkRequest url (headers user_agent) proxy 10) (gets evs)
    /\ headers user_agent <> ""
    /\ headers user_agent
       = match user_agent with
         | Some (String c ua) => String c ua
         | _ => hd "" USER_AGENTS
         end.
Proof.
  destruct (fetch_page_run net url user_agent proxy retries w)
    as (evs & res & Hrun & Hcases).
  exists evs, res. split; [done|]. split; [|split].
  - destruct Hcases as [(_ & -> & _)|[_ Hatt]]; [done|].
    by eapply attempts_requests_sent.
  - by destruct user_agent as [[|c ua]|].
  - by destruct user_agent as [[|c ua]|].
Qed.

(** X5: a call logs one warning for each attempt that fails, numbered
    1, 2, ... as the attempts are, and it logs the error "Failed to
    fetch" once when it gives up after an attempt, and never when it
    returns a page or makes no attempt. *)
Theorem fetch_page_logs (net : Network) (url : string)
    (user_agent proxy : option string) (retries : Z) (w : World) :
  exists evs res,
    fetch_page net url user_agent proxy retries w = (Ret res, after w evs)
    /\ warnings evs
       = List.map (fun i => Z.of_nat i + 1)
           (seq 0 (match res with Some _ => gets evs - 1 | None => gets evs end))
    /\ fetch_errors evs
       = match res with
         | Some _ => 0%nat
         | None => if (gets evs =? 0)%nat then 0%nat else 1%nat
         end.
Proof.
  destruct (fetch_page_run net url user_agent proxy retries w)
    as (evs & res & Hrun & Hcases).
  exists evs, res. split; [done|].
  destruct Hcases as [(_ & -> & ->)|[_ Hatt]]; [done|].
  destruct (attempts_logs _ _ _ _ _ _ _ Hatt) as [Hw He].
  split; [done|]. rewrite He. destruct res; [done|].
  assert (gets evs <> 0%nat) as Hg by (inversion Hatt; simpl; discriminate).
  by apply Nat.eqb_neq in Hg as ->.
Qed.

(** ** scrape_elements *)

(** X6: the record of an element depends on which attributes are listed,
    not on their order nor on how often one is listed. *)
Theorem element_data_attribute_set (attributes1 attributes2 : list string)
    (element : Node) :
  (forall a : string, a ∈ attributes1 <-> a ∈ attributes2) ->
  element_data attributes1 element = element_data attributes2 element.
Proof.
  intros Hsame. apply map_eq. intros k. rewrite !element_data_lookup.
  destruct (decide (k = "text")); [done|].
  destruct (decide (k ∈ attributes1)) as [H1|H1];
    destruct (decide (k ∈ attributes2)) as [H2|H2]; try done.
  - by apply Hsame in H1.
  - by apply Hsame in H2.
Qed.

Lemma element_data_attribute_set_witness :
  element_data ["class"; "id"; "class"] heading_with_text_attribute
  = element_data ["id"; "class"] heading_with_text_attribute.
Proof.
  apply (element_data_attribute_set ["class"; "id"; "class"] ["id"; "class"]
           heading_with_text_attribute).
  intros a. rewrite !elem_of_cons, !elem_of_nil. tauto.
Defined.

Lemma lstrip_starts (s : string) :
  match lstrip s with
  | EmptyString => True
  | String c _ => isspace c = false
  end.
Proof.
  induction s as [|c s IH]; [done|]. simpl.
  by destruct (isspace c) eqn:Hc.
Qed.

Lemma rstrip_idempotent (s : string) : rstrip (rstrip s) = rstrip s.
Proof.
  induction s as [|c s IH]; [done|]. simpl.
  destruct (rstrip s) as [|d r] eqn:Hr.
  - destruct (isspace c) eqn:Hc; [done|]. simpl. by rewrite Hc.
  - change (rstrip (String c (String d r)))
      with (match rstrip (String d r) with
            | EmptyString => if isspace c then EmptyString else String c EmptyString
            | r' => String c r'
            end).
    by rewrite IH.
Qed.

Lemma rstrip_keeps_start (c : ascii) (s : string) :
  isspace c = false -> exists r, rstrip (String c s) = String c r.
Proof.
  intros Hc. simpl. destruct (rstrip s) as [|d r]; [|by eexists].
  rewrite Hc. by eexists.
Qed.

(** What [strip] leaves is empty or trimmed. *)
Lemma strip_trimmed (s : string) : strip s = "" \/ trimmed (strip s).
Proof.
  unfold strip. pose proof (lstrip_starts s) as Hstart.
  destruct (lstrip s) as [|c t]; [by left|].
  right. destruct (rstrip_keeps_start c t Hstart) as [r Hr].
  split; [by rewrite Hr|apply rstrip_idempotent].
Qed.

Lemma trimmed_strip (s : string) : trimmed s -> strip s = s.
Proof.
  intros [Hstart Hend]. unfold strip.
  destruct s as [|c s]; [done|]. simpl in *. by rewrite Hstart.
Qed.

Lemma rstrip_app (a b : string) :
  b <> "" -> rstrip b = b -> rstrip (a ++ b)%string = (a ++ b)%string.
Proof.
  intros Hne Hb. induction a as [|c a IH]; [done|].
  change (String c a ++ b)%string with (String c (a ++ b)%string).
  cbn [rstrip]. rewrite IH. destruct (a ++ b)%string as [|d r] eqn:Hab; [|done].
  destruct a as [|c' a].
  - change (b = "") in Hab. congruence.
  - change (String c' (a ++ b)%string = "") in Hab. discriminate.
Qed.

Lemma trimmed_app (a b : string) :
  trimmed a -> trimmed b -> trimmed (a ++ b)%string.
Proof.
  intros [Ha _] [Hb Hbend]. destruct a as [|c a]; [done|].
  split; [|apply rstrip_app; [by destruct b|done]].
  by change (String c a ++ b)%string with (String c (a ++ b)%string).
Qed.

Lemma concat_trimmed (l : list string) :
  Forall trimmed l -> String.concat "" l = "" \/ trimmed (String.concat "" l).
Proof.
  induction 1 as [|x l Hx _ IH]; [by left|].
  right. destruct l as [|y l]; [done|].
  change (String.concat "" (x :: y :: l))
    with (x ++ String.concat "" (y :: l))%string.
  destruct IH as [Hempty|Hrest].
  - rewrite Hempty.
    assert ((x ++ "")%string = x) as ->; [|done].
    clear. induction x as [|c x IH]; [done|].
    change (String c x ++ "")%string with (String c (x ++ "")%string).
    by rewrite IH.
  - by apply trimmed_app.
Qed.

Lemma stripped_strings_trimmed (n : Node) : Forall trimmed (stripped_strings n).
Proof.
  unfold stripped_strings. apply Forall_flat_map, Forall_forall.
  intros [s|s|name attrs contents] _; [|constructor..].
  simpl. destruct (String.eqb_spec (strip s) ""); [constructor|].
  constructor; [|constructor]. by destruct (strip_trimmed s).
Qed.

(** X7: the "text" entry of a record is there whatever the attributes are,
    it is the text of the element, and it neither starts nor ends with
    white space: stripping it again changes nothing. *)
Theorem element_data_text_is_trimmed (attributes : list string) (element : Node) :
  element_data attributes element !! "text" = Some (Str (get_text element))
  /\ strip (get_text element) = get_text element
  /\ (get_text element = "" \/ trimmed (get_text element)).
Proof.
  split; [by rewrite element_data_lookup|].
  destruct (concat_trimmed _ (stripped_strings_trimmed element)) as [Hempty|Htrim].
  - unfold get_text. rewrite Hempty. split; [done|by left].
  - split; [by apply trimmed_strip|by right].
Qed.

(** ** scrape_next_button *)

(** X8: merging the results of a page loses nothing: the keys afterwards
    are the keys before and the keys of the page, and under every key the
    records that were there stay, in their order, at the front. *)
Theorem merge_results_extends
    (all_results results : gmap string (list (gmap string Value))) :
  dom (merge_results all_results results) = dom all_results ∪ dom results
  /\ forall k : string,
       default [] (all_results !! k)
         `prefix_of` default [] (merge_results all_results results !! k).
Proof.
  split.
  - apply set_eq. intros k.
    rewrite elem_of_union, !elem_of_dom, merge_results_lookup.
    destruct (results !! k), (all_results !! k); unfold is_Some;
      (split; [intros [x Hx]|intros [[x Hx]|[x Hx]]]); try discriminate; eauto.
  - intros k. rewrite merge_results_lookup.
    destruct (results !! k) as [data|]; [|done].
    by exists data.
Qed.

Section CrawlShape.

Variable parse : string -> Node.
Variable net : Network.
Variable elements : gmap string (list string).
Variable kwargs : Kwargs.

(** What the loop returns keeps every property of the aggregate that
    merging a page keeps. *)
Lemma scrape_loop_invariant (P : gmap string (list (gmap string Value)) -> Prop) :
  (forall all_results soup,
     P all_results ->
     P (merge_results all_results (scrape_elements soup elements))) ->
  forall (n : nat) (url : string) all_results w agg w',
    P all_results ->
    scrape_loop parse net elements kwargs n url all_results w = (Ret agg, w') ->
    P agg.
Proof.
  intros Hmerge. induction n as [|n IH]; intros url all_results w agg w' HP Hrun.
  - by injection Hrun as <- _.
  - rewrite scrape_loop_S in Hrun.
    destruct (fetch_page_kw net url kwargs _) as [[[content|]|e] w1];
      [|by injection Hrun as <- _|done].
    destruct (String.eqb content ""); [by injection Hrun as <- _|].
    cbv zeta in Hrun.
    destruct (find (parse content) "a" "Next") as [next_button|].
    + destruct (tag_attrs next_button !! "href") as [href|]; [|done].
      eapply IH; [|exact Hrun]. by apply Hmerge.
    + injection Hrun as <- _. by apply Hmerge.
Qed.

(** The addresses that a crawl of [follows] announces are the first one
    and then the targets of the "Next" links, as they are written. *)
Lemma follows_pages url w soups url' w' :
  follows parse net kwargs url w soups url' w' ->
  exists evs,
    w' = after w evs
    /\ pages_logged evs ++ [url'] = url :: omap next_href soups.
Proof.
  induction 1 as [url w|url w content w1 next_button href soups url' w'
                   Hfetch _ Hfind Hhref _ (evs & -> & Hpages)].
  - exists []. by rewrite after_nil.
  - unfold fetch_page_kw in Hfetch.
    destruct (fetch_page_run net url (kw_user_agent kwargs) (kw_proxy kwargs)
                (default 3 (kw_retries kwargs))
                (after w [EvLog (InfoScrapingPage url)]))
      as (evs1 & res & Hrun & Hcases).
    rewrite Hrun in Hfetch. injection Hfetch as -> <-.
    rewrite !after_after. eexists. split; [done|].
    assert (pages_logged evs1 = []) as Hpl.
    { destruct Hcases as [(_ & _ & [=])|[_ Hatt]].
      by eapply attempts_pages_logged. }
    assert (next_href (parse content) = Some href) as Hnext.
    { unfold next_href. by rewrite Hfind. }
    rewrite !pages_logged_app, Hpl, <- !app_assoc, Hpages.
    simpl. by rewrite Hnext.
Qed.

End CrawlShape.

(** X9: whatever the site answers, an aggregate that the paginator
    returns has no key outside the specification, and each of its records
    has the key "text" and otherwise only attributes that the
    specification lists for the selector of the record. *)
Theorem crawl_result_shape (parse : string -> Node) (net : Network)
    (base_url : string) (elements : gmap string (list string)) (max_pages : Z)
    (kwargs : Kwargs) (w : World)
    (agg : gmap string (list (gmap string Value))) (w' : World) :
  scrape_next_button parse net base_url elements max_pages kwargs w = (Ret agg, w') ->
  dom agg ⊆ dom elements
  /\ forall (k : string) (recs : list (gmap string Value)) (r : gmap string Value),
       agg !! k = Some recs ->
       r ∈ recs ->
       is_Some (r !! "text")
       /\ dom r ⊆ ({["text"]} ∪ list_to_set (default [] (elements !! k)) : gset string).
Proof.
  intros Hrun.
  assert (forall k recs,
            agg !! k = Some recs ->
            exists attributes,
              elements !! k = Some attributes
              /\ Forall (fun r => exists element, r = element_data attributes element)
                   recs) as Hshape.
  { revert Hrun. unfold scrape_next_button.
    apply (scrape_loop_invariant parse net elements kwargs
             (fun acc => forall k recs,
                acc !! k = Some recs ->
                exists attributes,
                  elements !! k = Some attributes
                  /\ Forall (fun r => exists element, r = element_data attributes element)
                       recs)).
    - intros acc soup Hacc k recs.
      rewrite merge_results_lookup, scrape_elements_lookup.
      destruct (elements !! k) as [attributes|] eqn:Hk; simpl.
      + intros [= <-]. exists attributes. split; [done|].
        apply Forall_app. split.
        * destruct (acc !! k) as [old|] eqn:Hold; [|constructor].
          destruct (Hacc k old Hold) as (attributes' & Hk' & Hold').
          by replace attributes with attributes' by congruence.
        * unfold page_records. apply Forall_fmap, Forall_forall.
          intros element _. by exists element.
      + intros Hold. destruct (Hacc k recs Hold) as (attributes & Hk' & _).
        congruence.
    - intros k recs. by rewrite lookup_empty. }
  split.
  - intros k [recs Hk]%elem_of_dom.
    destruct (Hshape k recs Hk) as (attributes & Hattrs & _).
    apply elem_of_dom. by exists attributes.
  - intros k recs r Hk Hr.
    destruct (Hshape k recs Hk) as (attributes & -> & Hall).
    rewrite Forall_forall in Hall. destruct (Hall r Hr) as [element ->].
    split; [by rewrite element_data_lookup|].
    intros a [v Ha]%elem_of_dom. rewrite element_data_lookup in Ha.
    destruct (decide (a = "text")) as [->|_]; [set_solver|].
    destruct (decide (a ∈ attributes)); [|done].
    apply elem_of_union_r, elem_of_list_to_set. done.
Qed.

Lemma crawl_result_shape_witness :
  dom ({["h1" := [ {["class" := StrList ["a"]; "text" := Str "Hi"]};
                   {["text" := Str "Bye"]};
                   {["class" := StrList ["b"]; "text" := Str "Pagetwo"]} ]]}
       : gmap string (list (gmap string Value)))
    ⊆ dom h1_class
  /\ forall (k : string) (recs : list (gmap string Value)) (r : gmap string Value),
       ({["h1" := [ {["class" := StrList ["a"]; "text" := Str "Hi"]};
                    {["text" := Str "Bye"]};
                    {["class" := StrList ["b"]; "text" := Str "Pagetwo"]} ]]}
        : gmap string (list (gmap string Value))) !! k = Some recs ->
       r ∈ recs ->
       is_Some (r !! "text")
       /\ dom r ⊆ ({["text"]} ∪ list_to_set (default [] (h1_class !! k)) : gset string).
Proof.
  apply (crawl_result_shape site_parse site_net "http://site/1" h1_class 10
           no_kwargs world0 _
           (after world0 [EvLog (InfoScrapingPage "http://site/1");
                          EvGet (mkRequest "http://site/1" (headers None) None 10);
                          EvLog (InfoScrapingPage "http://site/2");
                          EvGet (mkRequest "http://site/2" (headers None) None 10)])).
  by vm_compute.
Defined.

(** X10: when the crawl has followed the "Next" links of as many pages as
    [max_pages] allows, it returns the aggregate of exactly these pages.
    The addresses it announced are the first one and then the [href] of
    each "Next" link, used as it is written; the target of the last link
    is not fetched. *)
Theorem crawl_stops_at_max_pages (parse : string -> Node) (net : Network)
    (elements : gmap string (list string)) (kwargs : Kwargs)
    (base_url : string) (max_pages : Z) (w : World) (soups : list Node)
    (url' : string) (w' : World) :
  follows parse net kwargs base_url w soups url' w' ->
  Z.of_nat (length soups) = max_pages ->
  exists evs,
    scrape_next_button parse net base_url elements max_pages kwargs w
      = (Ret (merge_pages elements ∅ soups), after w evs)
    /\ w' = after w evs
    /\ pages_logged evs ++ [url'] = base_url :: omap next_href soups.
Proof.
  intros Hfollows <-.
  destruct (follows_pages parse net kwargs _ _ _ _ _ Hfollows) as (evs & -> & Hpages).
  exists evs. split; [|done].
  unfold scrape_next_button. rewrite Nat2Z.id.
  rewrite <- (Nat.add_0_r (length soups)).
  by rewrite (follows_loop parse net elements kwargs _ _ _ _ _ Hfollows).
Qed.

Lemma crawl_stops_at_max_pages_witness :
  exists evs,
    scrape_next_button site_parse site_net "http://site/1" h1_class 1 no_kwargs world0
      = (Ret (merge_pages h1_class ∅ [site_parse "<page1>"]), after world0 evs)
    /\ after world0 [EvLog (InfoScrapingPage "http://site/1");
                     EvGet (mkRequest "http://site/1" (headers None) None 10)]
       = after world0 evs
    /\ pages_logged evs ++ ["http://site/2"]
       = "http://site/1" :: omap next_href [site_parse "<page1>"].
Proof.
  apply (crawl_stops_at_max_pages site_parse site_net h1_class no_kwargs
           "http://site/1" 1 world0 [site_parse "<page1>"] "http://site/2").
  - eapply (follows_next _ _ _ _ _ "<page1>");
      [by vm_compute|done|by vm_compute..|apply follows_here].
  - reflexivity.
Defined.

(** X11: when every attempt on the first address fails, a crawl of at
    least one page announces that address, makes the attempts of one call
    of [fetch_page] and returns the empty dictionary; it raises nothing. *)
Theorem crawl_of_unreachable_start (parse : string -> Node) (net : Network)
    (base_url : string) (elements : gmap string (list string)) (max_pages : Z)
    (kwargs : Kwargs) (w : World) :
  always_fails net base_url ->
  0 < max_pages ->
  exists evs,
    scrape_next_button parse net base_url elements max_pages kwargs w
      = (Ret ∅, after w evs)
    /\ pages_logged evs = [base_url]
    /\ Z.of_nat (gets evs) = Z.max 0 (default 3 (kw_retries kwargs)).
Proof.
  intros Hdown Hpos. unfold scrape_next_button.
  destruct (Z.to_nat max_pages) as [|n] eqn:Hn; [lia|].
  rewrite scrape_loop_S. unfold fetch_page_kw.
  set (w1 := after w [EvLog (InfoScrapingPage base_url)]).
  destruct (fetch_page_run net base_url (kw_user_agent kwargs) (kw_proxy kwargs)
              (default 3 (kw_retries kwargs)) w1)
    as (evs & res & Hrun & Hcases).
  assert (res = None /\ pages_logged evs = []
          /\ Z.of_nat (gets evs) = Z.max 0 (default 3 (kw_retries kwargs)))
    as (-> & Hpl & Hg).
  { destruct Hcases as [(Hle & -> & ->)|[Hretries Hatt]].
    - repeat split. change (gets []) with 0%nat. lia.
    - pose proof (attempts_pages_logged _ _ _ _ _ _ _ Hatt) as Hpl.
      apply attempts_all_fail in Hatt as [-> Hg]; [|by intros i _; apply Hdown|done].
      repeat split; [done|lia]. }
  rewrite Hrun. unfold w1. rewrite after_after.
  eexists. split; [done|].
  rewrite pages_logged_app, gets_app, Hpl. split; [done|].
  change (gets [EvLog _]) with 0%nat. lia.
Qed.

Lemma crawl_of_unreachable_start_witness :
  exists evs,
    scrape_next_button site_parse net_down "http://site/1" h1_class 10 no_kwargs world0
      = (Ret ∅, after world0 evs)
    /\ pages_logged evs = ["http://site/1"]
    /\ Z.of_nat (gets evs) = Z.max 0 (default 3 (kw_retries no_kwargs)).
Proof.
  apply (crawl_of_unreachable_start site_parse net_down "http://site/1" h1_class 10
           no_kwargs world0).
  - intros n q _. by eexists.
  - lia.
Defined.

(** ** save_results *)

Lemma csv_rows_In (results : gmap string (list (gmap string Value)))
    (row : list Value) :
  In row (csv_rows results)
  <-> exists element_type elements element attr value,
        row = [Str element_type; Str attr; value]
        /\ results !! element_type = Some elements
        /\ element ∈ elements
        /\ element !! attr = Some value.
Proof.
  unfold csv_rows. rewrite in_flat_map. split.
  - intros ([element_type elements] & Hin & Hrow).
    apply list_elem_of_In, elem_of_map_to_list in Hin.
    apply in_flat_map in Hrow as (element & Helement & Hrow).
    apply in_map_iff in Hrow as ([attr value] & <- & Hattr).
    apply list_elem_of_In, elem_of_map_to_list in Hattr.
    exists element_type, elements, element, attr, value.
    by rewrite list_elem_of_In.
  - intros (element_type & elements & element & attr & value
            & -> & Hk & Helement & Hattr).
    exists (element_type, elements). split.
    + by apply list_elem_of_In, elem_of_map_to_list.
    + apply in_flat_map. exists element. split; [by apply list_elem_of_In|].
      apply in_map_iff. exists (attr, value). split; [done|].
      by apply list_elem_of_In, elem_of_map_to_list.
Qed.

(** X12: with the format "csv", [save_results] opens [filename.csv].
    When the file cannot be opened, the [OSError] of [open] leaves
    [save_results]: nothing is written, nothing logged.  When it can,
    this file and no other is written, the saving is logged and the call
    returns; the file starts with the header Element, Attribute, Value,
    and after it a row is in the file exactly when it is the selector,
    the key and the value of an entry of a record of the results. *)
Theorem save_results_csv (results : gmap string (list (gmap string Value)))
    (filename : string) (w : World) :
  (can_open w (filename ++ ".csv")%string = false ->
   save_results results "csv" filename w
   = (Exc (OSError (filename ++ ".csv")%string), w))
  /\ (can_open w (filename ++ ".csv")%string = true ->
      exists w' rows,
        save_results results "csv" filename w = (Ret tt, w')
        /\ files w'
           = <[(filename ++ ".csv")%string
                := CsvRows ([Str "Element"; Str "Attribute"; Str "Value"] :: rows)]>
               (files w)
        /\ trace w'
           = trace w ++ [EvLog (InfoResultsSaved (filename ++ ".csv")%string)]
        /\ forall row : list Value,
             In row rows
             <-> exists element_type elements element attr value,
                   row = [Str element_type; Str attr; value]
                   /\ results !! element_type = Some elements
                   /\ element ∈ elements
                   /\ element !! attr = Some value).
Proof.
  cbn [save_results String.eqb Ascii.eqb Bool.eqb].
  unfold bind, write_file. split; intros Hopen; rewrite Hopen; [done|].
  eexists _, (csv_rows results). split; [reflexivity|].
  split; [done|]. split; [done|]. apply csv_rows_In.
Qed.

Lemma save_results_csv_witness :
  save_results (scrape_elements two_headings h1_class) "csv" "missing_dir/out"
    unwritable_world
  = (Exc (OSError "missing_dir/out.csv"), unwritable_world)
  /\ exists w' rows,
       save_results (scrape_elements two_headings h1_class) "csv" "output" world0
         = (Ret tt, w')
       /\ files w'
          = <["output.csv"
               := CsvRows ([Str "Element"; Str "Attribute"; Str "Value"] :: rows)]>
              (files world0)
       /\ trace w' = trace world0 ++ [EvLog (InfoResultsSaved "output.csv")]
       /\ forall row : list Value,
            In row rows
            <-> exists element_type elements element attr value,
                  row = [Str element_type; Str attr; value]
                  /\ scrape_elements two_headings h1_class !! element_type
                     = Some elements
                  /\ element ∈ elements
                  /\ element !! attr = Some value.
Proof.
  split.
  - apply (save_results_csv (scrape_elements two_headings h1_class)
             "missing_dir/out" unwritable_world). reflexivity.
  - apply (save_results_csv (scrape_elements two_headings h1_class)
             "output" world0). reflexivity.
Defined.

Lemma json_path_is_not_csv_path (filename : string) :
  (filename ++ ".json")%string <> (filename ++ ".csv")%string.
Proof.
  induction filename as [|c filename IH]; [discriminate|].
  change (String c filename ++ ".json")%string
    with (String c (filename ++ ".json")%string).
  change (String c filename ++ ".csv")%string
    with (String c (filename ++ ".csv")%string).
  congruence.
Qed.

(** X13: when the two files can be opened, [save_results] writes one
    file, named after the format.  Saved under one name in both formats,
    the results are in two files, and no other file is touched; a later
    save in the same format replaces the file, one in the other format
    leaves it.  The CSV file holds the header and then the rows of the
    results that were saved last, whatever their order. *)
Theorem save_results_files
    (results results' : gmap string (list (gmap string Value)))
    (filename : string) (w : World) :
  can_open w (filename ++ ".json")%string = true ->
  can_open w (filename ++ ".csv")%string = true ->
  let w1 := (save_results results "json" filename w).2 in
  let w2 := (save_results results' "csv" filename w1).2 in
  let w3 := (save_results results' "json" filename w2).2 in
  files w1 = <[(filename ++ ".json")%string := JsonDump results]> (files w)
  /\ files w2 !! (filename ++ ".json")%string = Some (JsonDump results)
  /\ files w3 !! (filename ++ ".json")%string = Some (JsonDump results')
  /\ (exists rows,
        files w3 !! (filename ++ ".csv")%string
        = Some (CsvRows ([Str "Element"; Str "Attribute"; Str "Value"] :: rows))
        /\ forall row : list Value,
             In row rows
             <-> exists element_type elements element attr value,
                   row = [Str element_type; Str attr; value]
                   /\ results' !! element_type = Some elements
                   /\ element ∈ elements
                   /\ element !! attr = Some value)
  /\ forall path : string,
       path <> (filename ++ ".json")%string ->
       path <> (filename ++ ".csv")%string ->
       files w3 !! path = files w !! path.
Proof.
  intros Hjson Hcsv.
  pose proof (json_path_is_not_csv_path filename) as Hne.
  cbv zeta. cbn [save_results String.eqb Ascii.eqb Bool.eqb].
  unfold bind, write_file, logging, emit, after.
  rewrite Hjson. cbn [snd files can_open]. rewrite Hcsv.
  cbn [snd files can_open]. rewrite Hjson. cbn [snd files can_open].
  split; [done|]. split; [|split; [|split]].
  - by rewrite lookup_insert_ne, lookup_insert_eq.
  - by rewrite lookup_insert_eq.
  - exists (csv_rows results'). split; [|apply csv_rows_In].
    by rewrite lookup_insert_ne, lookup_insert_eq.
  - intros path Hpj Hpc.
    by rewrite !lookup_insert_ne.
Qed.

Lemma save_results_files_witness :
  let results := scrape_elements two_headings h1_class in
  let results' := scrape_elements page1 h1_class in
  let w1 := (save_results results "json" "output" world0).2 in
  let w2 := (save_results results' "csv" "output" w1).2 in
  let w3 := (save_results results' "json" "output" w2).2 in
  files w1 = <["output.json" := JsonDump results]> (files world0)
  /\ files w2 !! "output.json" = Some (JsonDump results)
  /\ files w3 !! "output.json" = Some (JsonDump results')
  /\ (exists rows,
        files w3 !! "output.csv"
        = Some (CsvRows ([Str "Element"; Str "Attribute"; Str "Value"] :: rows))
        /\ forall row : list Value,
             In row rows
             <-> exists element_type elements element attr value,
                   row = [Str element_type; Str attr; value]
                   /\ results' !! element_type = Some elements
                   /\ element ∈ elements
                   /\ element !! attr = Some value)
  /\ forall path : string,
       path <> "output.json" ->
       path <> "output.csv" ->
       files w3 !! path = files world0 !! path.
Proof.
  apply (save_results_files (scrape_elements two_headings h1_class)
           (scrape_elements page1 h1_class) "output" world0); reflexivity.
Defined.

(** ** save_to_sqlite *)

Section Sqlite.

Variable sqlite : Sqlite.

Lemma does_call (op : DbEvent) : does sqlite (db_call sqlite op) [op].
Proof.
  intros w. cbn [db_for_each]. unfold db_bind, db_call, db_ret.
  by destruct (sqlite (db_operations w) op).
Qed.

Lemma does_nothing : does sqlite (db_ret tt) [].
Proof. by intros w. Qed.

Lemma does_then (m1 m2 : DbM unit) (script1 script2 : list DbEvent) :
  does sqlite m1 script1 ->
  does sqlite m2 script2 ->
  does sqlite (m1 >>> m2) (script1 ++ script2).
Proof.
  intros H1 H2 w. unfold db_bind at 1. rewrite H1. clear H1 m1. revert w.
  induction script1 as [|op script1 IH]; intros w.
  - apply H2.
  - cbn [db_for_each app]. unfold db_bind.
    destruct (db_call sqlite op w) as [[[]|reason] w1]; [apply IH|done].
Qed.

Lemma does_for_each {A} (body : A -> DbM unit) (script : A -> list DbEvent)
    (l : list A) :
  (forall x, does sqlite (body x) (script x)) ->
  does sqlite (db_for_each body l) (flat_map script l).
Proof.
  intros Hbody. induction l as [|x l IH]; [apply does_nothing|].
  cbn [db_for_each flat_map]. by apply does_then.
Qed.

Lemma flat_map_singleton {A B} (f : A -> B) (l : list A) :
  flat_map (fun x => [f x]) l = List.map f l.
Proof. induction l as [|x l IH]; [done|]. simpl. by rewrite IH. Qed.

(** [m], and then what follows it, is the script of [m] and then the
    script of what follows. *)
Lemma does_before (m rest : DbM unit) (k : DbM unit)
    (script1 script2 : list DbEvent) :
  does sqlite m script1 ->
  (forall w, rest w = (db_for_each (db_call sqlite) script2 >>> k) w) ->
  forall w,
    (m >>> rest) w = (db_for_each (db_call sqlite) (script1 ++ script2) >>> k) w.
Proof.
  intros Hm Hrest w. unfold db_bind at 1. rewrite Hm. clear Hm m. revert w.
  induction script1 as [|op script1 IH]; intros w.
  - apply Hrest.
  - cbn [db_for_each app]. unfold db_bind.
    destruct (db_call sqlite op w) as [[[]|reason] w1]; [|done].
    rewrite IH. by unfold db_bind.
Qed.

(** The insertions of [save_to_sqlite] are one per entry of a record. *)
Lemma save_to_sqlite_insertions
    (results : gmap string (list (gmap string Value))) :
  does sqlite
    (db_for_each
       (fun '(element_type, elements) =>
          db_for_each
            (fun element : gmap string Value =>
               db_for_each
                 (fun '(attr, value) =>
                    db_call sqlite (DbExecute (InsertRow element_type attr value)))
                 (map_to_list element))
            elements)
       (map_to_list results))
    (flat_map
       (fun '(element_type, elements) =>
          flat_map
            (fun element : gmap string Value =>
               List.map (fun '(attr, value) =>
                           DbExecute (InsertRow element_type attr value))
                        (map_to_list element))
            elements)
       (map_to_list results)).
Proof.
  apply does_for_each. intros [element_type elements].
  apply does_for_each. intros element.
  rewrite <- flat_map_singleton.
  apply does_for_each. intros [attr value]. apply does_call.
Qed.

Lemma db_for_each_calls (script : list DbEvent) (w : DbWorld) :
  db_for_each (db_call sqlite) script w
  = let '(done, failure) := run_script sqlite (db_operations w) script in
    (match failure with None => DbRet tt | Some reason => DbExc reason end,
     mkDbWorld (db_operations w + length done) (db_trace w ++ done)).
Proof.
  revert w. induction script as [|op script IH]; intros [n tr].
  - cbn. by rewrite Nat.add_0_r, app_nil_r.
  - cbn [db_for_each run_script db_operations db_trace].
    unfold db_bind, db_call. cbn [db_operations db_trace].
    destruct (sqlite n op) as [reason|].
    + cbn. by rewrite Nat.add_1_r.
    + rewrite IH. cbn [db_operations db_trace].
      destruct (run_script sqlite (S n) script) as [done failure].
      cbn [length]. by rewrite Nat.add_succ_r, <- app_assoc.
Qed.

(** What was done of a script is its beginning, and all of it when
    nothing raised. *)
Lemma run_script_prefix (n : nat) (script : list DbEvent) :
  (run_script sqlite n script).1 `prefix_of` script
  /\ ((run_script sqlite n script).2 = None ->
      (run_script sqlite n script).1 = script).
Proof.
  revert n. induction script as [|op script IH]; intros n; [done|].
  cbn [run_script]. destruct (sqlite n op) as [reason|].
  - split; [by exists script|done].
  - destruct (IH (S n)) as [[rest Hrest] Hall].
    destruct (run_script sqlite (S n) script) as [done failure].
    cbn [fst snd] in *. split.
    + exists rest. by rewrite Hrest at 1.
    + intros Hnone. by rewrite Hall.
Qed.

(** Every call of [save_to_sqlite]. *)
Lemma save_to_sqlite_run (results : gmap string (list (gmap string Value)))
    (db_name : string) (w : DbWorld) :
  save_to_sqlite sqlite results db_name w
  = let '(done, failure) :=
      run_script sqlite (db_operations w) (sqlite_script results db_name) in
    (DbRet tt,
     mkDbWorld (db_operations w + length done)
       (db_trace w ++ done
        ++ [match failure with
            | None => DbLogInfo db_name
            | Some reason => DbLogError reason
            end])).
Proof.
  unfold save_to_sqlite, db_try.
  rewrite (does_before _ _ (db_log (DbLogInfo db_name))
             [DbConnect db_name]
             ([DbCursor; DbExecute CreateTableIfNotExists]
              ++ flat_map
                   (fun '(element_type, elements) =>
                      flat_map
                        (fun element : gmap string Value =>
                           List.map (fun '(attr, value) =>
                                       DbExecute (InsertRow element_type attr value))
                                    (map_to_list element))
                        elements)
                   (map_to_list results)
              ++ [DbCommit; DbClose])
             (does_call _)).
  2:{ apply (does_before _ _ _ [DbCursor]); [apply does_call|].
      apply (does_before _ _ _ [DbExecute CreateTableIfNotExists]);
        [apply does_call|].
      apply does_before; [apply save_to_sqlite_insertions|].
      apply (does_before _ _ _ [DbCommit] [DbClose]); [apply does_call|].
      apply (does_before _ _ _ [DbClose] []); [apply does_call|].
      by intros w'. }
  change ([DbConnect db_name]
          ++ [DbCursor; DbExecute CreateTableIfNotExists]
          ++ flat_map
               (fun '(element_type, elements) =>
                  flat_map
                    (fun element : gmap string Value =>
                       List.map (fun '(attr, value) =>
                                   DbExecute (InsertRow element_type attr value))
                                (map_to_list element))
                    elements)
               (map_to_list results)
          ++ [DbCommit; DbClose])
    with (sqlite_script results db_name).
  unfold db_bind. rewrite db_for_each_calls.
  destruct (run_script sqlite (db_operations w) (sqlite_script results db_name))
    as [done [reason|]]; unfold db_log; cbn [db_operations db_trace];
    by rewrite app_assoc.
Qed.

(** Nothing raises exactly when each operation of the script is taken
    at its turn. *)
Lemma run_script_succeeds (n : nat) (script : list DbEvent) :
  (run_script sqlite n script).2 = None
  <-> forall (i : nat) (op : DbEvent),
        script !! i = Some op -> sqlite (n + i)%nat op = None.
Proof.
  revert n. induction script as [|op script IH]; intros n; [done|].
  cbn [run_script]. destruct (sqlite n op) as [reason|] eqn:Hop.
  - split; [done|]. intros Hall.
    specialize (Hall 0%nat op eq_refl). rewrite Nat.add_0_r in Hall. congruence.
  - specialize (IH (S n)).
    destruct (run_script sqlite (S n) script) as [done failure].
    cbn [snd] in *. rewrite IH. split.
    + intros Hall [|i] op' Hi.
      * injection Hi as <-. by rewrite Nat.add_0_r.
      * rewrite Nat.add_succ_r. by apply Hall.
    + intros Hall i op' Hi. specialize (Hall (S i) op' Hi).
      by rewrite Nat.add_succ_r in Hall.
Qed.

End Sqlite.

Lemma inserted_app (a b : list DbEvent) :
  inserted (a ++ b) = inserted a ++ inserted b.
Proof. unfold inserted. apply flat_map_app. Qed.

Lemma inserted_flat_map {A} (f : A -> list DbEvent) (l : list A) :
  inserted (flat_map f l) = flat_map (fun x => inserted (f x)) l.
Proof.
  induction l as [|x l IH]; [done|].
  cbn [flat_map]. by rewrite inserted_app, IH.
Qed.

(** The rows that the script inserts are the rows of the CSV file. *)
Lemma inserted_script (results : gmap string (list (gmap string Value)))
    (db_name : string) :
  inserted (sqlite_script results db_name) = csv_rows results.
Proof.
  unfold sqlite_script, csv_rows.
  rewrite !inserted_app, inserted_flat_map.
  change (inserted [DbConnect db_name; DbCursor; DbExecute CreateTableIfNotExists])
    with (@nil (list Value)).
  change (inserted [DbCommit; DbClose]) with (@nil (list Value)).
  rewrite app_nil_l, app_nil_r.
  apply flat_map_ext. intros [element_type elements].
  rewrite inserted_flat_map. apply flat_map_ext. intros element.
  induction (map_to_list element) as [|[attr value] l IH]; [done|].
  cbn [List.map]. change (inserted (?e :: ?l)) with (inserted [e] ++ inserted l).
  by rewrite <- IH.
Qed.

(** X14: [save_to_sqlite] never raises.  It connects, takes a cursor,
    creates the table when there is none, inserts the rows, commits and
    closes, in this order, and stops at the first of these operations
    that raises.  It then logs once, last: that the results were saved
    when every operation was taken, else the error, with the message of
    the operation that raised. *)
Theorem save_to_sqlite_outcome (sqlite : Sqlite)
    (results : gmap string (list (gmap string Value))) (db_name : string)
    (w : DbWorld) :
  exists done failure,
    save_to_sqlite sqlite results db_name w
      = (DbRet tt,
         mkDbWorld (db_operations w + length done)
           (db_trace w ++ done
            ++ [match failure with
                | None => DbLogInfo db_name
                | Some reason => DbLogError reason
                end]))
    /\ run_script sqlite (db_operations w) (sqlite_script results db_name)
       = (done, failure)
    /\ done `prefix_of` sqlite_script results db_name
    /\ (failure = None -> done = sqlite_script results db_name)
    /\ (failure = None
        <-> forall (i : nat) (op : DbEvent),
              sqlite_script results db_name !! i = Some op ->
              sqlite (db_operations w + i)%nat op = None).
Proof.
  pose proof (save_to_sqlite_run sqlite results db_name w) as Hrun.
  pose proof (run_script_prefix sqlite (db_operations w)
                (sqlite_script results db_name)) as [Hprefix Hall].
  pose proof (run_script_succeeds sqlite (db_operations w)
                (sqlite_script results db_name)) as Hiff.
  destruct (run_script sqlite (db_operations w) (sqlite_script results db_name))
    as [done failure].
  by exists done, failure.
Qed.

(** X15: the rows that [save_to_sqlite] inserts are the rows that
    [save_results] writes after the header of the CSV file, in the same
    order, or the first of them when an operation raises; and the commit
    is asked for only when every row was inserted. *)
Theorem save_to_sqlite_rows (sqlite : Sqlite)
    (results : gmap string (list (gmap string Value))) (db_name : string)
    (w : DbWorld) :
  exists evs n,
    save_to_sqlite sqlite results db_name w
      = (DbRet tt, mkDbWorld n (db_trace w ++ evs))
    /\ inserted evs `prefix_of` csv_rows results
    /\ (In DbCommit evs -> inserted evs = csv_rows results)
    /\ ((forall i op, sqlite i op = None) -> inserted evs = csv_rows results).
Proof.
  pose proof (save_to_sqlite_run sqlite results db_name w) as Hrun.
  pose proof (run_script_prefix sqlite (db_operations w)
                (sqlite_script results db_name)) as [[rest Hrest] Hall].
  pose proof (run_script_succeeds sqlite (db_operations w)
                (sqlite_script results db_name)) as Hiff.
  destruct (run_script sqlite (db_operations w) (sqlite_script results db_name))
    as [done failure].
  cbn [fst snd] in *.
  eexists _, _. split; [exact Hrun|].
  assert (inserted (done ++ [match failure with
                             | None => DbLogInfo db_name
                             | Some reason => DbLogError reason
                             end]) = inserted done) as ->.
  { rewrite inserted_app. destruct failure; apply app_nil_r. }
  pose proof (inserted_script results db_name) as Hrows.
  split; [|split].
  - exists (inserted rest). by rewrite <- Hrows, Hrest, inserted_app.
  - intros [Hin|Hin]%in_app_or; [|by destruct failure, Hin].
    rewrite <- Hrows. unfold sqlite_script in *.
    rewrite app_assoc in Hrest.
    apply app_eq_app in Hrest as [l [[Hpre _]|[Hdone Hl]]].
    + exfalso.
      assert (In DbCommit
                ([DbConnect db_name; DbCursor; DbExecute CreateTableIfNotExists]
                 ++ flat_map
                      (fun '(element_type, elements) =>
                         flat_map
                           (fun element : gmap string Value =>
                              List.map (fun '(attr, value) =>
                                          DbExecute (InsertRow element_type attr value))
                                       (map_to_list element))
                           elements)
                      (map_to_list results))) as Hcommit.
      { rewrite Hpre. apply in_or_app. by left. }
      apply in_app_or in Hcommit as [Hc|Hc].
      * by destruct Hc as [|[|[|]]].
      * apply in_flat_map in Hc as ([element_type elements] & _ & Hc).
        apply in_flat_map in Hc as (element & _ & Hc).
        by apply in_map_iff in Hc as ([attr value] & ? & _).
    + rewrite Hdone, !inserted_app.
      change (inserted [DbCommit; DbClose]) with (@nil (list Value)).
      assert (inserted l = []) as ->; [|by rewrite !app_nil_r].
      destruct l as [|a [|b [|c l]]]; [done|..].
      * by injection Hl as <- _.
      * by injection Hl as <- <- _.
      * discriminate Hl.
  - intros Hok. rewrite Hall, Hrows; [done|].
    apply Hiff. intros i op _. apply Hok.
Qed.

(** ** scrape_next_button, once more *)

Section CrawlRequests.

Variable parse : string -> Node.
Variable net : Network.
Variable elements : gmap string (list string).
Variable kwargs : Kwargs.

Lemma requests_sent_app (a b : list Event) :
  requests_sent (a ++ b) = requests_sent a ++ requests_sent b.
Proof. unfold requests_sent. apply flat_map_app. Qed.

Lemma scrape_loop_requests (n : nat) :
  forall (url : string) (all_results : gmap string (list (gmap string Value)))
         (w : World),
  exists res evs,
    scrape_loop parse net elements kwargs n url all_results w = (res, after w evs)
    /\ Forall (crawl_request kwargs (pages_logged evs)) (requests_sent evs).
Proof.
  induction n as [|n IH]; intros url all_results w.
  - exists (Ret all_results), []. rewrite after_nil. split; [done|constructor].
  - rewrite scrape_loop_S. unfold fetch_page_kw.
    destruct (fetch_page_run net url (kw_user_agent kwargs) (kw_proxy kwargs)
                (default 3 (kw_retries kwargs))
                (after w [EvLog (InfoScrapingPage url)]))
      as (evs1 & res1 & -> & Hcases).
    assert (forall later,
              Forall (crawl_request kwargs
                        (pages_logged ([EvLog (InfoScrapingPage url)] ++ evs1 ++ later)))
                     (requests_sent ([EvLog (InfoScrapingPage url)] ++ evs1)))
      as Hfirst.
    { intros later. rewrite requests_sent_app. cbn [requests_sent flat_map app].
      destruct Hcases as [(_ & -> & _)|[_ Hatt]]; [constructor|].
      rewrite (attempts_requests_sent _ _ _ _ _ _ _ Hatt).
      apply List.Forall_forall. intros r ->%repeat_spec.
      split; [by left|done]. }
    rewrite after_after.
    assert (exists evs,
              after w ([EvLog (InfoScrapingPage url)] ++ evs1) = after w evs
              /\ Forall (crawl_request kwargs (pages_logged evs)) (requests_sent evs))
      as Hstop.
    { eexists. split; [done|]. specialize (Hfirst []).
      by rewrite app_nil_r in Hfirst. }
    destruct res1 as [content|];
      [|by destruct Hstop as (evs & -> & Hall); eexists _, evs].
    destruct (String.eqb content "");
      [by destruct Hstop as (evs & -> & Hall); eexists _, evs|].
    cbv zeta.
    destruct (find (parse content) "a" "Next") as [next_button|];
      [|by destruct Hstop as (evs & -> & Hall); eexists _, evs].
    destruct (tag_attrs next_button !! "href") as [href|];
      [|by destruct Hstop as (evs & -> & Hall); eexists _, evs].
    clear Hstop.
    destruct (IH href
                (merge_results all_results (scrape_elements (parse content) elements))
                (after w ([EvLog (InfoScrapingPage url)] ++ evs1)))
      as (res & evs & -> & Hrest).
    rewrite after_after. eexists res, _. split; [done|].
    rewrite requests_sent_app. apply Forall_app. split.
    + rewrite <- app_assoc. apply Hfirst.
    + eapply Forall_impl; [exact Hrest|].
      intros r (Hin & Hrest'). split; [|done].
      rewrite pages_logged_app. apply in_or_app. by right.
Qed.

(** A page whose "Next" link leads back to it is followed again and
    again. *)
Lemma loop_follows (url content : string) (next_button : Node) :
  0 < default 3 (kw_retries kwargs) ->
  (forall n, net n (mkRequest url (headers (kw_user_agent kwargs))
                      (kw_proxy kwargs) 10) = Ret content) ->
  content <> "" ->
  find (parse content) "a" "Next" = Some next_button ->
  tag_attrs next_button !! "href" = Some url ->
  forall (n : nat) (w : World),
  exists evs,
    follows parse net kwargs url w (replicate n (parse content)) url (after w evs)
    /\ pages_logged evs = replicate n url
    /\ gets evs = n.
Proof.
  intros Hretries Hnet Hne Hfind Hhref.
  induction n as [|n IH]; intros w.
  - exists []. rewrite after_nil. split; [constructor|done].
  - destruct (IH (after (after w [EvLog (InfoScrapingPage url)])
                    [EvGet (mkRequest url (headers (kw_user_agent kwargs))
                              (kw_proxy kwargs) 10)]))
      as (evs & Hfollows & Hpages & Hgets).
    exists ([EvLog (InfoScrapingPage url)]
            ++ [EvGet (mkRequest url (headers (kw_user_agent kwargs))
                         (kw_proxy kwargs) 10)]
            ++ evs).
    split; [|split].
    + rewrite <- !after_after. cbn [replicate].
      eapply follows_next; [|done..|exact Hfollows].
      unfold fetch_page_kw.
      by rewrite (fetch_page_first_succeeds _ _ _ _ _ _ content Hretries (Hnet _)).
    + rewrite !pages_logged_app, Hpages. done.
    + rewrite !gets_app, Hgets. done.
Qed.

End CrawlRequests.

(** X16: the paginator does not notice a loop.  When the "Next" link of a
    page leads back to the page, the page is fetched [max_pages] times,
    and each selector of the specification gets the records of the page
    as many times. *)
Theorem crawl_of_a_loop (parse : string -> Node) (net : Network)
    (elements : gmap string (list string)) (kwargs : Kwargs)
    (url content : string) (next_button : Node) (max_pages : Z) (w : World) :
  0 < default 3 (kw_retries kwargs) ->
  (forall n, net n (mkRequest url (headers (kw_user_agent kwargs))
                      (kw_proxy kwargs) 10) = Ret content) ->
  content <> "" ->
  find (parse content) "a" "Next" = Some next_button ->
  tag_attrs next_button !! "href" = Some url ->
  0 < max_pages ->
  exists agg evs,
    scrape_next_button parse net url elements max_pages kwargs w
      = (Ret agg, after w evs)
    /\ pages_logged evs = replicate (Z.to_nat max_pages) url
    /\ gets evs = Z.to_nat max_pages
    /\ forall k : string,
         agg !! k
         = (fun attributes =>
              concat (replicate (Z.to_nat max_pages)
                        (page_records attributes k (parse content))))
             <$> elements !! k.
Proof.
  intros Hretries Hnet Hne Hfind Hhref Hpos.
  destruct (loop_follows parse net kwargs url content next_button
              Hretries Hnet Hne Hfind Hhref (Z.to_nat max_pages) w)
    as (evs & Hfollows & Hpages & Hgets).
  exists (merge_pages elements ∅ (replicate (Z.to_nat max_pages) (parse content))), evs.
  split; [|split; [done|split; [done|]]].
  - unfold scrape_next_button.
    pose proof (follows_loop parse net elements kwargs _ _ _ _ _ Hfollows 0 ∅) as Hloop.
    by rewrite length_replicate, Nat.add_0_r in Hloop.
  - intros k. rewrite merge_pages_lookup, lookup_empty.
    destruct (elements !! k) as [attributes|]; [|done].
    destruct (Z.to_nat max_pages) as [|n] eqn:Hn; [lia|].
    cbn [replicate]. simpl. by rewrite fmap_replicate.
Qed.

Lemma crawl_of_a_loop_witness :
  exists agg evs,
    scrape_next_button endless_parse endless_net "http://site/more" h1_class 3
      no_kwargs world0 = (Ret agg, after world0 evs)
    /\ pages_logged evs = replicate (Z.to_nat 3) "http://site/more"
    /\ gets evs = Z.to_nat 3
    /\ forall k : string,
         agg !! k
         = (fun attributes =>
              concat (replicate (Z.to_nat 3)
                        (page_records attributes k (endless_parse "<more>"))))
             <$> h1_class !! k.
Proof.
  apply (crawl_of_a_loop endless_parse endless_net h1_class no_kwargs
           "http://site/more" "<more>" (next_link "http://site/more") 3 world0).
  - simpl. lia.
  - reflexivity.
  - discriminate.
  - reflexivity.
  - reflexivity.
  - lia.
Defined.

(** X17: no request of a crawl goes another way than the keyword
    arguments say: each one is sent to an address that the crawl
    announced, with the user agent and through the proxy of the keyword
    arguments, and with a timeout of 10 seconds. *)
Theorem crawl_requests (parse : string -> Node) (net : Network)
    (base_url : string) (elements : gmap string (list string)) (max_pages : Z)
    (kwargs : Kwargs) (w : World) :
  exists res evs,
    scrape_next_button parse net base_url elements max_pages kwargs w
      = (res, after w evs)
    /\ Forall (fun r =>
                 In (req_url r) (pages_logged evs)
                 /\ req_user_agent r = headers (kw_user_agent kwargs)
                 /\ req_proxy r = kw_proxy kwargs
                 /\ req_timeout r = 10)
         (requests_sent evs).
Proof.
  unfold scrape_next_button.
  destruct (scrape_loop_requests parse net elements kwargs (Z.to_nat max_pages)
              base_url ∅ w) as (res & evs & Hrun & Hall).
  by exists res, evs.
Qed.

(** ** The database at work *)

Example save_to_sqlite_saves :
  (save_to_sqlite sqlite_ok (scrape_elements two_headings h1_class)
     "scraped_data.db" db_world0).2
  = mkDbWorld 8
      [DbConnect "scraped_data.db"; DbCursor; DbExecute CreateTableIfNotExists;
       DbExecute (InsertRow "h1" "class" (StrList ["a"]));
       DbExecute (InsertRow "h1" "text" (Str "Hi"));
       DbExecute (InsertRow "h1" "text" (Str "Bye"));
       DbCommit; DbClose; DbLogInfo "scraped_data.db"].
Proof. by vm_compute. Qed.

Example save_to_sqlite_of_a_class_list :
  save_to_sqlite sqlite_strict (scrape_elements two_headings h1_class)
    "scraped_data.db" db_world0
  = (DbRet tt,
     mkDbWorld 4
       [DbConnect "scraped_data.db"; DbCursor; DbExecute CreateTableIfNotExists;
        DbExecute (InsertRow "h1" "class" (StrList ["a"]));
        DbLogError "unsupported type"]).
Proof. by vm_compute. Qed.

Example save_to_sqlite_on_a_full_disk :
  save_to_sqlite (sqlite_full_at 4) (scrape_elements two_headings h1_class)
    "scraped_data.db" db_world0
  = (DbRet tt,
     mkDbWorld 5
       [DbConnect "scraped_data.db"; DbCursor; DbExecute CreateTableIfNotExists;
        DbExecute (InsertRow "h1" "class" (StrList ["a"]));
        DbExecute (InsertRow "h1" "text" (Str "Hi"));
        DbLogError "database or disk is full"]).
Proof. by vm_compute. Qed.
